(** * NmapToolKit: the nmap front end of [main.py]

    A shallow embedding of the script's five parts: the target normalizer
    ([strip_url]), the argument parser ([parse_args]), the command builder
    ([build_command]), the interactive prompt sequence ([interactive_mode])
    and the driver ([main]), followed by the properties of each.

    Python strings are modelled as [string] (code points below 256), Python
    integers as [Z], [None]-or-string attributes as [option string]. Input,
    output, process exit and uncaught exceptions are threaded through a small
    state-and-outcome monad over a [World]. *)

From Stdlib Require Import String Ascii List ZArith Lia Bool Arith.
From Stdlib Require DecimalString.
Import ListNotations.
Local Open Scope list_scope.
Local Open Scope string_scope.
Local Open Scope nat_scope.

Set Implicit Arguments.

(** ** Python string primitives *)

Module PyStr.

(** [s.startswith(p)], returning what follows the prefix. *)
Fixpoint strip_prefix (p s : string) : option string :=
  match p with
  | EmptyString => Some s
  | String a p' =>
      match s with
      | EmptyString => None
      | String b s' => if Ascii.eqb a b then strip_prefix p' s' else None
      end
  end.

Definition startswith (s p : string) : bool :=
  match strip_prefix p s with Some _ => true | None => false end.

(** Truth value of a string: only [''] is false. *)
Definition nonempty (s : string) : bool :=
  match s with EmptyString => false | String _ _ => true end.

(** [str.isspace] on one character: TAB..CR, FS..US, space, NEL, NBSP. *)
Definition isspace (c : ascii) : bool :=
  let n := nat_of_ascii c in
  ((9 <=? n) && (n <=? 13)) || ((28 <=? n) && (n <=? 32))
  || (n =? 133) || (n =? 160).

Fixpoint lstrip (s : string) : string :=
  match s with
  | EmptyString => EmptyString
  | String c s' => if isspace c then lstrip s' else s
  end.

(** Right strip: a character is kept when something is kept after it or it
    is not white space. *)
Fixpoint rstrip (s : string) : string :=
  match s with
  | EmptyString => EmptyString
  | String c s' =>
      match rstrip s' with
      | EmptyString => if isspace c then EmptyString else String c EmptyString
      | r => String c r
      end
  end.

(** [s.strip()] *)
Definition strip (s : string) : string := rstrip (lstrip s).

(** [s.split(sep)] for a one-character separator: never an empty list. *)
Fixpoint split (sep : ascii) (s : string) : list string :=
  match s with
  | EmptyString => [EmptyString]
  | String c s' =>
      if Ascii.eqb c sep then EmptyString :: split sep s'
      else match split sep s' with
           | [] => [String c EmptyString]
           | w :: ws => String c w :: ws
           end
  end.

(** [sep.join(xs)] *)
Fixpoint join (sep : string) (xs : list string) : string :=
  match xs with
  | [] => EmptyString
  | [x] => x
  | x :: rest => x ++ sep ++ join sep rest
  end.

(** [x in xs] for a list of strings. *)
Definition contains (x : string) (xs : list string) : bool :=
  existsb (String.eqb x) xs.

(** [c.lower()] on one character: A..Z and the Latin-1 capitals. *)
Definition lower_char (c : ascii) : ascii :=
  let n := nat_of_ascii c in
  if ((65 <=? n) && (n <=? 90))
     || ((192 <=? n) && (n <=? 222) && negb (n =? 215))
  then ascii_of_nat (n + 32) else c.

Fixpoint lower (s : string) : string :=
  match s with
  | EmptyString => EmptyString
  | String c s' => String (lower_char c) (lower s')
  end.

(** [str(n)] for an integer. *)
Definition of_int (n : Z) : string :=
  DecimalString.NilZero.string_of_int (Z.to_int n).

Definition digit_value (c : ascii) : option Z :=
  let n := nat_of_ascii c in
  if (48 <=? n) && (n <=? 57) then Some (Z.of_nat (n - 48)) else None.

(** Digits of an integer literal as [int()] reads them: at least one digit,
    a single underscore allowed between two digits. [acc] is the value so
    far, [after_digit] says whether the previous character was a digit. *)
Fixpoint int_digits (s : string) (acc : Z) (after_digit : bool) : option Z :=
  match s with
  | EmptyString => if after_digit then Some acc else None
  | String c s' =>
      match digit_value c with
      | Some d => int_digits s' (10 * acc + d)%Z true
      | None =>
          if Ascii.eqb c "_" && after_digit
          then match s' with
               | EmptyString => None
               | String c' _ =>
                   match digit_value c' with
                   | Some _ => int_digits s' acc false
                   | None => None
                   end
               end
          else None
      end
  end.

(** [int(s)] in base ten; [None] stands for [ValueError]. The cap some
    interpreters put on the number of digits is left out. *)
Definition to_int (s : string) : option Z :=
  match strip s with
  | String "-" r => option_map Z.opp (int_digits r 0%Z false)
  | String "+" r => int_digits r 0%Z false
  | r => int_digits r 0%Z false
  end.

End PyStr.

(** ** A backtracking matcher for the regular expressions the script uses *)

Module Re.

Inductive regex : Type :=
| Bos                          (* ^ : start of the string *)
| Chr (c : ascii)              (* a literal character *)
| Eps                          (* the empty pattern *)
| Cat (r1 r2 : regex)          (* r1 r2 *)
| Opt (r : regex).             (* r? , greedy *)

(** A literal run of characters. *)
Fixpoint lit (p : string) : regex :=
  match p with
  | EmptyString => Eps
  | String c p' => Cat (Chr c) (lit p')
  end.

(** [rmatch r pos s k]: match [r] against [s], which starts at offset
    [pos] of the subject, and hand the end offset and the rest to the
    continuation [k]; alternatives are tried in the engine's order, the
    first one that [k] accepts wins. *)
Fixpoint rmatch (A : Type) (r : regex) (pos : nat) (s : string)
         (k : nat -> string -> option A) : option A :=
  match r with
  | Bos => if pos =? 0 then k pos s else None
  | Chr c =>
      match s with
      | String b s' => if Ascii.eqb c b then k (S pos) s' else None
      | EmptyString => None
      end
  | Eps => k pos s
  | Cat r1 r2 => rmatch r1 pos s (fun pos' s' => rmatch r2 pos' s' k)
  | Opt r1 =>
      match rmatch r1 pos s k with
      | Some x => Some x
      | None => k pos s
      end
  end.

(** A match found by a search: the text skipped before it, the offset at
    which it ends, the text after it, and whether it was empty. *)
Record found : Type := mkFound
  { skipped : string; end_pos : nat; rest : string; was_empty : bool }.

(** The final continuation: an empty match is refused when the search
    must advance. *)
Definition accept (must_advance : bool) (start : nat)
           (pos' : nat) (s' : string) : option (nat * string) :=
  if must_advance && (pos' =? start) then None else Some (pos', s').

(** The leftmost match at or after [pos]. *)
Fixpoint search (r : regex) (pos : nat) (s : string) (must_advance : bool)
  : option found :=
  match rmatch r pos s (accept must_advance pos) with
  | Some (e, s') => Some (mkFound EmptyString e s' (e =? pos))
  | None =>
      match s with
      | EmptyString => None
      | String c s' =>
          match search r (S pos) s' false with
          | Some f => Some (mkFound (String c (skipped f)) (end_pos f)
                                    (rest f) (was_empty f))
          | None => None
          end
      end
  end.

(** The replacement loop of [re.sub]: copy what precedes each match, put
    [repl] in its place, go on after it; an empty match forces the next
    search to advance. *)
Fixpoint sub_loop (fuel : nat) (r : regex) (repl : string)
         (pos : nat) (s : string) (must_advance : bool) : string :=
  match fuel with
  | O => s
  | S fuel' =>
      match search r pos s must_advance with
      | None => s
      | Some f =>
          skipped f ++ repl ++
          sub_loop fuel' r repl (end_pos f) (rest f) (was_empty f)
      end
  end.

(** [re.sub(r, repl, s)]. A match is empty or takes a character, and no two
    empty matches start at one offset, so a subject of length [n] holds at
    most [2 n + 1] matches; the loop is given one round more. *)
Definition sub (r : regex) (repl : string) (s : string) : string :=
  sub_loop (2 * String.length s + 2) r repl 0 s false.

End Re.

(** ** Target normalizer *)

(** The pattern [^(https?://)?(www\.)?]. *)
Definition url_prefix : Re.regex :=
  Re.Cat Re.Bos
    (Re.Cat (Re.Opt (Re.Cat (Re.lit "http")
                       (Re.Cat (Re.Opt (Re.Chr "s")) (Re.lit "://"))))
            (Re.Opt (Re.lit "www."))).

Definition strip_url (target : string) : string :=
  Re.sub url_prefix "" target.

(** The normalizer in the words of its contract: drop a leading scheme if
    there is one, then a leading [www.] if there is one. *)
Definition drop_prefix (p s : string) : string :=
  match PyStr.strip_prefix p s with Some r => r | None => s end.

Definition drop_scheme (s : string) : string :=
  match PyStr.strip_prefix "https://" s with
  | Some r => r
  | None => drop_prefix "http://" s
  end.

Definition strip_url_contract (s : string) : string :=
  drop_prefix "www." (drop_scheme s).

(** ** Configuration model *)

(** The attributes of the [argparse.Namespace] the script works on. The
    type of [target] is a parameter: the parser leaves it [None] or a string,
    the command builder reads a string. *)
Record Namespace (T : Type) : Type := mkNamespace
  { target : T;
    interactive : bool;
    syn_scan : bool;
    connect_scan : bool;
    udp_scan : bool;
    version_detect : bool;
    script_default : bool;
    script_cats : option string;
    script_file : option string;
    os_detect : bool;
    skip_ping : bool;
    decoy : option string;
    timing : Z;
    ports : option string;
    output_normal : option string;
    output_xml : option string;
    output_grep : option string;
    output_json : option string }.

(** What [parse_args] returns, and what [build_command] is given. *)
Definition Args : Type := Namespace (option string).
Definition Config : Type := Namespace string.

(** Attribute assignment, one function per attribute. *)
Section Setters.
Context {T : Type}.
Implicit Type ns : Namespace T.

Definition set_target {U : Type} (v : U) ns : Namespace U :=
  mkNamespace v (interactive ns) (syn_scan ns) (connect_scan ns)
    (udp_scan ns) (version_detect ns) (script_default ns) (script_cats ns)
    (script_file ns) (os_detect ns) (skip_ping ns) (decoy ns) (timing ns)
    (ports ns) (output_normal ns) (output_xml ns) (output_grep ns)
    (output_json ns).
Definition set_interactive (v : bool) ns : Namespace T :=
  mkNamespace (target ns) v (syn_scan ns) (connect_scan ns)
    (udp_scan ns) (version_detect ns) (script_default ns) (script_cats ns)
    (script_file ns) (os_detect ns) (skip_ping ns) (decoy ns) (timing ns)
    (ports ns) (output_normal ns) (output_xml ns) (output_grep ns)
    (output_json ns).
Definition set_syn_scan (v : bool) ns : Namespace T :=
  mkNamespace (target ns) (interactive ns) v (connect_scan ns)
    (udp_scan ns) (version_detect ns) (script_default ns) (script_cats ns)
    (script_file ns) (os_detect ns) (skip_ping ns) (decoy ns) (timing ns)
    (ports ns) (output_normal ns) (output_xml ns) (output_grep ns)
    (output_json ns).
Definition set_connect_scan (v : bool) ns : Namespace T :=
  mkNamespace (target ns) (interactive ns) (syn_scan ns) v
    (udp_scan ns) (version_detect ns) (script_default ns) (script_cats ns)
    (script_file ns) (os_detect ns) (skip_ping ns) (decoy ns) (timing ns)
    (ports ns) (output_normal ns) (output_xml ns) (output_grep ns)
    (output_json ns).
Definition set_udp_scan (v : bool) ns : Namespace T :=
  mkNamespace (target ns) (interactive ns) (syn_scan ns) (connect_scan ns)
    v (version_detect ns) (script_default ns) (script_cats ns)
    (script_file ns) (os_detect ns) (skip_ping ns) (decoy ns) (timing ns)
    (ports ns) (output_normal ns) (output_xml ns) (output_grep ns)
    (output_json ns).
Definition set_version_detect (v : bool) ns : Namespace T :=
  mkNamespace (target ns) (interactive ns) (syn_scan ns) (connect_scan ns)
    (udp_scan ns) v (script_default ns) (script_cats ns)
    (script_file ns) (os_detect ns) (skip_ping ns) (decoy ns) (timing ns)
    (ports ns) (output_normal ns) (output_xml ns) (output_grep ns)
    (output_json ns).
Definition set_script_default (v : bool) ns : Namespace T :=
  mkNamespace (target ns) (interactive ns) (syn_scan ns) (connect_scan ns)
    (udp_scan ns) (version_detect ns) v (script_cats ns)
    (script_file ns) (os_detect ns) (skip_ping ns) (decoy ns) (timing ns)
    (ports ns) (output_normal ns) (output_xml ns) (output_grep ns)
    (output_json ns).
Definition set_script_cats (v : option string) ns : Namespace T :=
  mkNamespace (target ns) (interactive ns) (syn_scan ns) (connect_scan ns)
    (udp_scan ns) (version_detect ns) (script_default ns) v
    (script_file ns) (os_detect ns) (skip_ping ns) (decoy ns) (timing ns)
    (ports ns) (output_normal ns) (output_xml ns) (output_grep ns)
    (output_json ns).
Definition set_script_file (v : option string) ns : Namespace T :=
  mkNamespace (target ns) (interactive ns) (syn_scan ns) (connect_scan ns)
    (udp_scan ns) (version_detect ns) (script_default ns) (script_cats ns)
    v (os_detect ns) (skip_ping ns) (decoy ns) (timing ns)
    (ports ns) (output_normal ns) (output_xml ns) (output_grep ns)
    (output_json ns).
Definition set_os_detect (v : bool) ns : Namespace T :=
  mkNamespace (target ns) (interactive ns) (syn_scan ns) (connect_scan ns)
    (udp_scan ns) (version_detect ns) (script_default ns) (script_cats ns)
    (script_file ns) v (skip_ping ns) (decoy ns) (timing ns)
    (ports ns) (output_normal ns) (output_xml ns) (output_grep ns)
    (output_json ns).
Definition set_skip_ping (v : bool) ns : Namespace T :=
  mkNamespace (target ns) (interactive ns) (syn_scan ns) (connect_scan ns)
    (udp_scan ns) (version_detect ns) (script_default ns) (script_cats ns)
    (script_file ns) (os_detect ns) v (decoy ns) (timing ns)
    (ports ns) (output_normal ns) (output_xml ns) (output_grep ns)
    (output_json ns).
Definition set_decoy (v : option string) ns : Namespace T :=
  mkNamespace (target ns) (interactive ns) (syn_scan ns) (connect_scan ns)
    (udp_scan ns) (version_detect ns) (script_default ns) (script_cats ns)
    (script_file ns) (os_detect ns) (skip_ping ns) v (timing ns)
    (ports ns) (output_normal ns) (output_xml ns) (output_grep ns)
    (output_json ns).
Definition set_timing (v : Z) ns : Namespace T :=
  mkNamespace (target ns) (interactive ns) (syn_scan ns) (connect_scan ns)
    (udp_scan ns) (version_detect ns) (script_default ns) (script_cats ns)
    (script_file ns) (os_detect ns) (skip_ping ns) (decoy ns) v
    (ports ns) (output_normal ns) (output_xml ns) (output_grep ns)
    (output_json ns).
Definition set_ports (v : option string) ns : Namespace T :=
  mkNamespace (target ns) (interactive ns) (syn_scan ns) (connect_scan ns)
    (udp_scan ns) (version_detect ns) (script_default ns) (script_cats ns)
    (script_file ns) (os_detect ns) (skip_ping ns) (decoy ns) (timing ns)
    v (output_normal ns) (output_xml ns) (output_grep ns)
    (output_json ns).
Definition set_output_normal (v : option string) ns : Namespace T :=
  mkNamespace (target ns) (interactive ns) (syn_scan ns) (connect_scan ns)
    (udp_scan ns) (version_detect ns) (script_default ns) (script_cats ns)
    (script_file ns) (os_detect ns) (skip_ping ns) (decoy ns) (timing ns)
    (ports ns) v (output_xml ns) (output_grep ns)
    (output_json ns).
Definition set_output_xml (v : option string) ns : Namespace T :=
  mkNamespace (target ns) (interactive ns) (syn_scan ns) (connect_scan ns)
    (udp_scan ns) (version_detect ns) (script_default ns) (script_cats ns)
    (script_file ns) (os_detect ns) (skip_ping ns) (decoy ns) (timing ns)
    (ports ns) (output_normal ns) v (output_grep ns)
    (output_json ns).
Definition set_output_grep (v : option string) ns : Namespace T :=
  mkNamespace (target ns) (interactive ns) (syn_scan ns) (connect_scan ns)
    (udp_scan ns) (version_detect ns) (script_default ns) (script_cats ns)
    (script_file ns) (os_detect ns) (skip_ping ns) (decoy ns) (timing ns)
    (ports ns) (output_normal ns) (output_xml ns) v
    (output_json ns).
Definition set_output_json (v : option string) ns : Namespace T :=
  mkNamespace (target ns) (interactive ns) (syn_scan ns) (connect_scan ns)
    (udp_scan ns) (version_detect ns) (script_default ns) (script_cats ns)
    (script_file ns) (os_detect ns) (skip_ping ns) (decoy ns) (timing ns)
    (ports ns) (output_normal ns) (output_xml ns) (output_grep ns)
    v.
End Setters.

(** Truth value of a [None]-or-string attribute. *)
Definition truthy (o : option string) : bool :=
  match o with Some s => PyStr.nonempty s | None => false end.

(** ** The argparse fragment that [parse_args] relies on

    Option strings are matched exactly, as [--long=value], as [-Xvalue] for
    a two-character option, as a run of joined one-letter flags, or by an
    unambiguous prefix; a bare [--] makes everything after it positional;
    one optional positional is accepted; whatever is left over is reported
    as unrecognized once every argument has been processed. *)

Module Argparse.

Inductive usage_error : Type :=
| ambiguous_option (arg : string) (candidates : list string)
| expected_one_argument (opt : string)
| ignored_explicit_argument (opt : string) (arg : string)
| invalid_int_value (opt : string) (value : string)
| invalid_choice (opt : string) (value : Z)
| unrecognized_arguments (args : list string).

(** How a call of [parse_args] ends: a namespace, a usage error (message
    on the error stream, exit status 2) or the help text (on the output
    stream, exit status 0). *)
Inductive result (N : Type) : Type :=
| Parsed (ns : N)
| Usage (e : usage_error)
| HelpShown.
Arguments Usage {N} e.
Arguments HelpShown {N}.

(** [s.partition(sep)] when [sep] occurs: the text before its first
    occurrence and the text after it. *)
Fixpoint partition (sep : ascii) (s : string) : option (string * string) :=
  match s with
  | EmptyString => None
  | String c s' =>
      if Ascii.eqb c sep then Some (EmptyString, s')
      else match partition sep s' with
           | Some (a, b) => Some (String c a, b)
           | None => None
           end
  end.

Fixpoint has_char (c : ascii) (s : string) : bool :=
  match s with
  | EmptyString => false
  | String b s' => Ascii.eqb b c || has_char c s'
  end.

Definition is_digit (c : ascii) : bool :=
  match PyStr.digit_value c with Some _ => true | None => false end.

Fixpoint skip_digits (s : string) : string :=
  match s with
  | EmptyString => EmptyString
  | String c s' => if is_digit c then skip_digits s' else s
  end.

(** The end of the subject, or the newline that ends it. *)
Definition at_end (s : string) : bool :=
  match s with
  | EmptyString => true
  | String c EmptyString => Ascii.eqb c (ascii_of_nat 10)
  | _ => false
  end.

(** One digit or more, then the end. *)
Definition digits_then_end (s : string) : bool :=
  match s with
  | String c _ => is_digit c && at_end (skip_digits s)
  | EmptyString => false
  end.

(** The pattern [^-\d+$|^-\d*\.\d+$] for arguments that read as negative
    numbers. *)
Definition negative_number (arg : string) : bool :=
  match arg with
  | String "-" r =>
      digits_then_end r
      || match skip_digits r with
         | String "." r' => digits_then_end r'
         | _ => false
         end
  | _ => false
  end.

Section Parser.
Variable N : Type.

Inductive action : Type :=
| store_true (set : N -> N)
| store (set : string -> N -> N)
| store_int (choices : list Z) (set : Z -> N -> N)
| help.

(** A parser: the namespace of defaults, the setter of its one optional
    positional, and the options in the order they were added. *)
Record ArgumentParser : Type := mkParser
  { defaults : N;
    positional : string -> N -> N;
    optionals : list (list string * action) }.

Variable parser : ArgumentParser.

Definition takes_argument (a : action) : bool :=
  match a with
  | store _ | store_int _ _ => true
  | store_true _ | help => false
  end.

(** Every option string with its action. *)
Definition option_string_actions : list (string * action) :=
  flat_map (fun '(strs, a) => map (fun s => (s, a)) strs)
           (optionals parser).

Definition find_option (s : string) : option action :=
  match List.find (fun '(o, _) => String.eqb o s) option_string_actions with
  | Some (_, a) => Some a
  | None => None
  end.

(** How one argument string is read. *)
Inductive arg_class : Type :=
| positional_arg
| separator
| unknown_option
| known_option (opt : string) (a : action) (explicit : option string).

Definition long_option (s : string) : bool :=
  match s with
  | String _ (String c1 _) => Ascii.eqb c1 "-"
  | _ => false
  end.

(** The options an abbreviated argument may stand for. *)
Definition option_tuples (arg : string)
  : list (string * action * option string) :=
  match arg with
  | String c0 (String c1 tail) =>
      if Ascii.eqb c1 "-" then
        let '(prefix, explicit) :=
          match partition "=" arg with
          | Some (o, e) => (o, Some e)
          | None => (arg, None)
          end in
        flat_map (fun '(o, a) =>
                    if PyStr.startswith o prefix then [(o, a, explicit)]
                    else [])
                 option_string_actions
      else
        let short := String c0 (String c1 EmptyString) in
        flat_map (fun '(o, a) =>
                    if String.eqb o short then [(o, a, Some tail)]
                    else if PyStr.startswith o arg then [(o, a, None)]
                    else [])
                 option_string_actions
  | _ => []
  end.

Definition parse_optional (arg : string) : usage_error + arg_class :=
  match arg with
  | EmptyString => inr positional_arg
  | String c _ =>
      if negb (Ascii.eqb c "-") then inr positional_arg else
      match find_option arg with
      | Some a => inr (known_option arg a None)
      | None =>
          if String.length arg =? 1 then inr positional_arg else
          let with_value :=
            match partition "=" arg with
            | Some (o, e) =>
                match find_option o with
                | Some a => Some (known_option o a (Some e))
                | None => None
                end
            | None => None
            end in
          match with_value with
          | Some k => inr k
          | None =>
              match option_tuples arg with
              | [(o, a, e)] => inr (known_option o a e)
              | (_ :: _ :: _) as ts =>
                  inl (ambiguous_option arg (map (fun t => fst (fst t)) ts))
              | [] =>
                  if negative_number arg then inr positional_arg
                  else if has_char " " arg then inr positional_arg
                  else inr unknown_option
              end
          end
      end
  end.

(** First pass: read every argument; after a bare [--] everything is
    positional. *)
Fixpoint classify (args : list string)
  : usage_error + list (string * arg_class) :=
  match args with
  | [] => inr []
  | a :: rest =>
      if String.eqb a "--"
      then inr ((a, separator) :: map (fun x => (x, positional_arg)) rest)
      else match parse_optional a with
           | inl e => inl e
           | inr c =>
               match classify rest with
               | inl e => inl e
               | inr cs => inr ((a, c) :: cs)
               end
           end
  end.

(** One-letter flags written together ([-iO], [-iT5]): each flag that
    takes no argument hands the rest of the text to the next one. The
    result lists the flags passed over and the option reached last. *)
Fixpoint joined (opt : string) (a : action) (e : string)
         (passed : list (string * action * option string))
  : usage_error
    + (list (string * action * option string)
       * (string * action * option string)) :=
  if takes_argument a then inr (passed, (opt, a, Some e))
  else if long_option opt then inl (ignored_explicit_argument opt e)
  else
    match e with
    | EmptyString => inl (ignored_explicit_argument opt e)
    | String c e' =>
        let opt' := String "-" (String c EmptyString) in
        match find_option opt' with
        | None => inl (ignored_explicit_argument opt e)
        | Some a' =>
            match e' with
            | EmptyString =>
                inr ((passed ++ [(opt, a, None)])%list, (opt', a', None))
            | _ => joined opt' a' e' (passed ++ [(opt, a, None)])%list
            end
        end
    end.

(** Run one action on its value. *)
Definition take_action (t : string * action * option string) (ns : N)
  : result N :=
  let '(opt, a, value) := t in
  match a, value with
  | store_true set, _ => Parsed (set ns)
  | help, _ => HelpShown
  | store set, Some v => Parsed (set v ns)
  | store_int choices set, Some v =>
      match PyStr.to_int v with
      | None => Usage (invalid_int_value opt v)
      | Some n =>
          if existsb (Z.eqb n) choices then Parsed (set n ns)
          else Usage (invalid_choice opt n)
      end
  | store _, None | store_int _ _, None => Usage (expected_one_argument opt)
  end.

Fixpoint take_actions (ts : list (string * action * option string))
         (ns : N) : result N :=
  match ts with
  | [] => Parsed ns
  | t :: ts' =>
      match take_action t ns with
      | Parsed ns' => take_actions ts' ns'
      | r => r
      end
  end.

(** Progress of the second pass. *)
Record state : Type := mkState
  { st_ns : N; st_seen_positional : bool; st_extras : list string }.

Definition take_positional (a : string) (st : state) : state :=
  if st_seen_positional st
  then mkState (st_ns st) true (st_extras st ++ [a])%list
  else mkState (positional parser a (st_ns st)) true (st_extras st).

Definition with_ns (st : state) (r : result N) (k : state -> result state)
  : result state :=
  match r with
  | Parsed ns' => k (mkState ns' (st_seen_positional st) (st_extras st))
  | Usage e => Usage e
  | HelpShown => HelpShown
  end.

(** Second pass: consume the classified arguments from left to right. *)
Fixpoint consume (items : list (string * arg_class)) (st : state)
  : result state :=
  match items with
  | [] => Parsed st
  | (a, positional_arg) :: rest => consume rest (take_positional a st)
  | (_, separator) :: rest => consume rest st
  | (a, unknown_option) :: rest =>
      consume rest (mkState (st_ns st) (st_seen_positional st)
                            (st_extras st ++ [a])%list)
  | (_, known_option opt act explicit) :: rest =>
      let chain :=
        match explicit with
        | Some e => joined opt act e []
        | None => inr ([], (opt, act, None))
        end in
      match chain with
      | inl e => Usage e
      | inr (passed, (opt', act', Some v)) =>
          with_ns st (take_actions (passed ++ [(opt', act', Some v)])%list
                                   (st_ns st))
                  (consume rest)
      | inr (passed, (opt', act', None)) =>
          if takes_argument act' then
            match rest with
            | (v, positional_arg) :: rest' =>
                with_ns st (take_actions (passed ++ [(opt', act', Some v)])%list
                                         (st_ns st))
                        (consume rest')
            | (_, separator) :: (v, positional_arg) :: rest' =>
                with_ns st (take_actions (passed ++ [(opt', act', Some v)])%list
                                         (st_ns st))
                        (consume rest')
            | _ => Usage (expected_one_argument opt')
            end
          else
            with_ns st (take_actions (passed ++ [(opt', act', None)])%list
                                     (st_ns st))
                    (consume rest)
      end
  end.

Definition parse_args (args : list string) : result N :=
  match classify args with
  | inl e => Usage e
  | inr items =>
      match consume items (mkState (defaults parser) false []) with
      | Parsed st =>
          match st_extras st with
          | [] => Parsed (st_ns st)
          | extras => Usage (unrecognized_arguments extras)
          end
      | Usage e => Usage e
      | HelpShown => HelpShown
      end
  end.

End Parser.

Arguments store_true {N} set.
Arguments store {N} set.
Arguments store_int {N} choices set.
Arguments help {N}.

End Argparse.

(** ** [parse_args] *)

(** [range(0,6)] *)
Definition timing_choices : list Z := [0; 1; 2; 3; 4; 5]%Z.

(** The parser built by the [add_argument] calls, after the [-h/--help]
    option every parser starts with. Nothing is stored for an option that
    is not given: flags default to [False], values to [None], the timing
    to 4. *)
Definition parser : Argparse.ArgumentParser Args :=
  Argparse.mkParser
    (mkNamespace None false false false false false false None None false
                 false None 4%Z None None None None None)
    (fun v => set_target (Some v))
    [ (["-h"; "--help"], Argparse.help);
      (["-i"; "--interactive"], Argparse.store_true (set_interactive true));
      (["-sS"; "--syn-scan"], Argparse.store_true (set_syn_scan true));
      (["-sT"; "--connect-scan"], Argparse.store_true (set_connect_scan true));
      (["-sU"; "--udp-scan"], Argparse.store_true (set_udp_scan true));
      (["-sV"; "--version-detect"],
        Argparse.store_true (set_version_detect true));
      (["-sC"; "--script-default"],
        Argparse.store_true (set_script_default true));
      (["--script-cats"], Argparse.store (fun v => set_script_cats (Some v)));
      (["--script-file"], Argparse.store (fun v => set_script_file (Some v)));
      (["-O"; "--os-detect"], Argparse.store_true (set_os_detect true));
      (["-Pn"; "--skip-ping"], Argparse.store_true (set_skip_ping true));
      (["--decoy"], Argparse.store (fun v => set_decoy (Some v)));
      (["-T"; "--timing"], Argparse.store_int timing_choices set_timing);
      (["-p"; "--ports"], Argparse.store (fun v => set_ports (Some v)));
      (["-oN"; "--output-normal"],
        Argparse.store (fun v => set_output_normal (Some v)));
      (["-oX"; "--output-xml"],
        Argparse.store (fun v => set_output_xml (Some v)));
      (["-oG"; "--output-grep"],
        Argparse.store (fun v => set_output_grep (Some v)));
      (["-oJ"; "--output-json"],
        Argparse.store (fun v => set_output_json (Some v))) ].

Definition parse_args (argv : list string) : Argparse.result Args :=
  Argparse.parse_args parser argv.

(** ** Command builder *)

(** [cmd.append(x)] and [cmd.extend(xs)] *)
Definition append (x : string) (cmd : list string) : list string :=
  (cmd ++ [x])%list.
Definition extend (xs : list string) (cmd : list string) : list string :=
  (cmd ++ xs)%list.

(** [if c: stmt], for a statement that updates the command list. *)
Definition when (c : bool) (stmt : list string -> list string)
           (cmd : list string) : list string :=
  if c then stmt cmd else cmd.

(** [if attr: stmt] for a [None]-or-string attribute: the statement runs,
    and reads the attribute, when it holds a non-empty string. *)
Definition when_set (attr : option string)
           (stmt : string -> list string -> list string)
           (cmd : list string) : list string :=
  match attr with
  | Some v => when (PyStr.nonempty v) (stmt v) cmd
  | None => cmd
  end.

Definition build_command (cfg : Config) : list string :=
  let cmd := ["sudo"; "nmap"] in
  let cmd := when (skip_ping cfg) (append "-Pn") cmd in
  let cmd := when (syn_scan cfg) (append "-sS") cmd in
  let cmd := when (connect_scan cfg) (append "-sT") cmd in
  let cmd := when (udp_scan cfg) (append "-sU") cmd in
  let cmd := when (version_detect cfg) (append "-sV") cmd in
  let cmd := when (script_default cfg) (append "-sC") cmd in
  let cmd := when_set (script_cats cfg) (fun v => extend ["--script"; v]) cmd in
  let cmd := when_set (script_file cfg) (fun v => extend ["--script"; v]) cmd in
  let cmd := when (os_detect cfg) (append "-O") cmd in
  let cmd := when_set (decoy cfg) (fun v => extend ["--decoy"; v]) cmd in
  let cmd := append ("-T" ++ PyStr.of_int (timing cfg)) cmd in
  let cmd := when_set (ports cfg) (fun v => extend ["-p"; v]) cmd in
  let cmd := append (target cfg) cmd in
  let cmd := when_set (output_normal cfg) (fun v => extend ["-oN"; v]) cmd in
  let cmd := when_set (output_xml cfg) (fun v => extend ["-oX"; v]) cmd in
  let cmd := when_set (output_grep cfg) (fun v => extend ["-oG"; v]) cmd in
  let cmd := when_set (output_json cfg) (fun v => extend ["-oJ"; v]) cmd in
  cmd.

(** ** Input, output and process exit *)

(** What the script hands to a stream: text of its own, or one of the
    messages argparse composes. *)
Inductive output : Type :=
| Text (s : string)
| UsageMessage (e : Argparse.usage_error)
| HelpMessage.

(** Exceptions the script can meet. *)
Inductive exn : Type :=
| EOFError                                          (* input() at end of input *)
| ValueError (s : string)                           (* int() on a bad literal *)
| OSError (cmd : list string)                       (* the child cannot be started *)
| CalledProcessError (cmd : list string) (returncode : Z).

(** The surroundings of one run: the lines waiting on standard input, what
    has been written to the two output streams, and the commands launched
    so far. *)
Record World : Type := mkWorld
  { stdin : list string;
    stdout : list output;
    stderr : list output;
    launched : list (list string) }.

(** How a computation ends: with a value, by [sys.exit], or with an
    exception on its way up. *)
Inductive outcome (A : Type) : Type :=
| Ret (a : A)
| Exit (code : Z)
| Raise (e : exn).
Arguments Exit {A} code.
Arguments Raise {A} e.

Definition Py (A : Type) : Type := World -> outcome A * World.

Definition ret {A : Type} (a : A) : Py A := fun w => (Ret a, w).

Definition bind {A B : Type} (m : Py A) (f : A -> Py B) : Py B :=
  fun w =>
    match m w with
    | (Ret a, w') => f a w'
    | (Exit c, w') => (Exit c, w')
    | (Raise e, w') => (Raise e, w')
    end.

Notation "x <- m ;; k" := (bind m (fun x => k))
  (at level 61, m at next level, right associativity).
Notation "m ;;; k" := (bind m (fun _ => k))
  (at level 61, right associativity).

Definition newline : string := String (ascii_of_nat 10) EmptyString.

Definition write_stdout (o : output) : Py unit :=
  fun w => (Ret tt, mkWorld (stdin w) (stdout w ++ [o])%list (stderr w)
                            (launched w)).

Definition write_stderr (o : output) : Py unit :=
  fun w => (Ret tt, mkWorld (stdin w) (stdout w) (stderr w ++ [o])%list
                            (launched w)).

(** [print(s)] and [print(s, file=sys.stderr)] *)
Definition print (s : string) : Py unit := write_stdout (Text (s ++ newline)).
Definition eprint (s : string) : Py unit := write_stderr (Text (s ++ newline)).

(** [input(prompt)]: the prompt goes to standard output, the answer is the
    next line without its line end. *)
Definition input (prompt : string) : Py string :=
  fun w =>
    let w' := mkWorld (stdin w) (stdout w ++ [Text prompt])%list (stderr w)
                      (launched w) in
    match stdin w with
    | [] => (Raise EOFError, w')
    | line :: rest =>
        (Ret line, mkWorld rest (stdout w') (stderr w') (launched w'))
    end.

Definition raise {A : Type} (e : exn) : Py A := fun w => (Raise e, w).

(** [sys.exit(code)] *)
Definition sys_exit {A : Type} (code : Z) : Py A := fun w => (Exit code, w).

(** [try: body  except CalledProcessError as e: handler] *)
Definition try_except_CalledProcessError {A : Type} (body : Py A)
           (handler : list string -> Z -> Py A) : Py A :=
  fun w =>
    match body w with
    | (Raise (CalledProcessError cmd rc), w') => handler cmd rc w'
    | r => r
    end.

(** [int(x)] on a string. *)
Definition int (s : string) : Py Z :=
  match PyStr.to_int s with
  | Some n => ret n
  | None => raise (ValueError s)
  end.

(** The script's [parse_args()] as a step of the run: argparse reports a
    usage error on standard error and exits with status 2, shows the help on
    standard output and exits with status 0. *)
Definition run_parse_args (argv : list string) : Py Args :=
  match parse_args argv with
  | Argparse.Parsed ns => ret ns
  | Argparse.Usage e => write_stderr (UsageMessage e) ;;; sys_exit 2%Z
  | Argparse.HelpShown => write_stdout HelpMessage ;;; sys_exit 0%Z
  end.

(** The machine the script runs on. *)
Record Host : Type := mkHost
  { (* the status a launched command ends with ([-n] after signal [n]);
       [None] when it cannot be started *)
    spawn : list string -> option Z;
    (* [str(e)] for a [CalledProcessError] *)
    describe : list string -> Z -> string }.

Section Program.
Variable host : Host.

(** [subprocess.run(cmd, check=True)] *)
Definition subprocess_run (cmd : list string) : Py unit :=
  fun w =>
    match spawn host cmd with
    | None => (Raise (OSError cmd), w)
    | Some rc =>
        let w' := mkWorld (stdin w) (stdout w) (stderr w)
                          (launched w ++ [cmd])%list in
        if (rc =? 0)%Z then (Ret tt, w')
        else (Raise (CalledProcessError cmd rc), w')
    end.

(** The namespace with every attribute [False]. Each attribute but
    [interactive] is assigned before [interactive_mode] returns; until
    then [False] is kept as the false value of the attribute's type. *)
Definition all_false : Config :=
  mkNamespace "" false false false false false false None None false
              false None 0%Z None None None None None.

(** [x or None] and [x or d] on a string. *)
Definition or_None (s : string) : option string :=
  if PyStr.nonempty s then Some s else None.
Definition or_default (s d : string) : string :=
  if PyStr.nonempty s then s else d.

Definition interactive_mode (argv : list string) : Py Config :=
  print "--- Interactive Nmap Configuration ---" ;;;
  target <- input "Target IP/hostname/URL: " ;;
  let target := PyStr.strip target in
  let target := strip_url target in
  print "Select scans (comma separated): 1) SYN 2) Connect 3) UDP 4) Version 5) OS 6) Default scripts" ;;;
  choices <- input "Enter numbers [1-6]: " ;;
  let choices := PyStr.split "," choices in
  _keys <- run_parse_args argv ;;
  let cfg := all_false in
  let cfg := set_target target cfg in
  answer <- input "Skip host discovery? (y/N): " ;;
  let cfg := set_skip_ping (PyStr.startswith (PyStr.lower answer) "y") cfg in
  let cfg := set_syn_scan (PyStr.contains "1" choices) cfg in
  let cfg := set_connect_scan (PyStr.contains "2" choices) cfg in
  let cfg := set_udp_scan (PyStr.contains "3" choices) cfg in
  let cfg := set_version_detect (PyStr.contains "4" choices) cfg in
  let cfg := set_os_detect (PyStr.contains "5" choices) cfg in
  let cfg := set_script_default (PyStr.contains "6" choices) cfg in
  answer <- input "NSE categories (e.g. vuln,discovery) or leave blank: " ;;
  let cfg := set_script_cats (or_None (PyStr.strip answer)) cfg in
  answer <- input "Specific NSE script file/dir or blank: " ;;
  let cfg := set_script_file (or_None (PyStr.strip answer)) cfg in
  answer <- input "Decoy IPs (comma separated) or blank: " ;;
  let cfg := set_decoy (or_None (PyStr.strip answer)) cfg in
  answer <- input "Timing template (0-5) [4]: " ;;
  level <- (if PyStr.nonempty answer then int answer else ret 4%Z) ;;
  let cfg := set_timing level cfg in
  answer <- input "Port range [1-1000]: " ;;
  let cfg := set_ports (Some (or_default (PyStr.strip answer) "1-1000")) cfg in
  answer <- input "Output file name [scan.txt]: " ;;
  let cfg :=
    set_output_normal (Some (or_default (PyStr.strip answer) "scan.txt")) cfg in
  let cfg := set_output_xml None cfg in
  let cfg := set_output_grep None cfg in
  let cfg := set_output_json None cfg in
  ret cfg.

(** The first half of [main]: the configuration comes from the prompts
    when [-i] is given or the target is missing or empty, from the
    arguments otherwise. *)
Definition configure (argv : list string) : Py Config :=
  args <- run_parse_args argv ;;
  match target args with
  | Some t =>
      if interactive args || negb (PyStr.nonempty t)
      then interactive_mode argv
      else ret (set_target (strip_url t) args)
  | None => interactive_mode argv
  end.

(** The second half of [main]: build the command, announce it, run it
    and report. *)
Definition execute (cfg : Config) : Py unit :=
  let cmd := build_command cfg in
  print ("Running:" ++ " " ++ PyStr.join " " cmd) ;;;
  try_except_CalledProcessError
    (subprocess_run cmd ;;;
     print "Scan complete.")
    (fun cmd' rc =>
       eprint ("Error: " ++ describe host cmd' rc) ;;;
       sys_exit rc).

Definition main (argv : list string) : Py unit :=
  cfg <- configure argv ;;
  execute cfg.

End Program.

(** The world a run starts in. *)
Definition initial (lines : list string) : World := mkWorld lines [] [] [].

(** ** The contracts in the specification's words *)

(** A flag contributes its token when it is set, nothing otherwise. *)
Definition flag (b : bool) (token : string) : list string :=
  if b then [token] else [].

(** A value-bearing option contributes its name and its value when the
    value is set (a non-empty string), nothing otherwise. *)
Definition selector (name : string) (value : option string) : list string :=
  match value with
  | Some v => if PyStr.nonempty v then [name; v] else []
  | None => []
  end.

(** The fixed token order of the command builder. *)
Definition command_contract (cfg : Config) : list string :=
  (["sudo"] ++ ["nmap"]
   ++ flag (skip_ping cfg) "-Pn"
   ++ flag (syn_scan cfg) "-sS"
   ++ flag (connect_scan cfg) "-sT"
   ++ flag (udp_scan cfg) "-sU"
   ++ flag (version_detect cfg) "-sV"
   ++ flag (script_default cfg) "-sC"
   ++ selector "--script" (script_cats cfg)
   ++ selector "--script" (script_file cfg)
   ++ flag (os_detect cfg) "-O"
   ++ selector "--decoy" (decoy cfg)
   ++ [("-T" ++ PyStr.of_int (timing cfg))%string]
   ++ selector "-p" (ports cfg)
   ++ [target cfg]
   ++ selector "-oN" (output_normal cfg)
   ++ selector "-oX" (output_xml cfg)
   ++ selector "-oG" (output_grep cfg)
   ++ selector "-oJ" (output_json cfg))%list.

(** The nine answers the interactive prompts read, in the order asked. *)
Record Answers : Type := mkAnswers
  { ans_target : string;
    ans_scans : string;
    ans_skip_ping : string;
    ans_script_cats : string;
    ans_script_file : string;
    ans_decoy : string;
    ans_timing : string;
    ans_ports : string;
    ans_output : string }.

Definition answer_lines (a : Answers) : list string :=
  [ ans_target a; ans_scans a; ans_skip_ping a; ans_script_cats a;
    ans_script_file a; ans_decoy a; ans_timing a; ans_ports a; ans_output a ].

(** What the timing prompt makes of its answer: 4 for the empty answer,
    the integer the answer spells otherwise, nothing when it spells none. *)
Definition timing_level (answer : string) : option Z :=
  if PyStr.nonempty answer then PyStr.to_int answer else Some 4%Z.

(** What the prompts write to standard output, in order. *)
Definition interactive_prompts : list output :=
  [ Text ("--- Interactive Nmap Configuration ---" ++ newline);
    Text "Target IP/hostname/URL: ";
    Text ("Select scans (comma separated): 1) SYN 2) Connect 3) UDP 4) Version 5) OS 6) Default scripts" ++ newline);
    Text "Enter numbers [1-6]: ";
    Text "Skip host discovery? (y/N): ";
    Text "NSE categories (e.g. vuln,discovery) or leave blank: ";
    Text "Specific NSE script file/dir or blank: ";
    Text "Decoy IPs (comma separated) or blank: ";
    Text "Timing template (0-5) [4]: ";
    Text "Port range [1-1000]: ";
    Text "Output file name [scan.txt]: " ].

(** A scan-selection entry holds no comma. *)
Definition comma_free (entry : string) : bool :=
  negb (Argparse.has_char "," entry).

(** The invariant the data model states for the target: not empty, no
    leading scheme, no leading [www.]. *)
Definition clean_target (t : string) : bool :=
  PyStr.nonempty t
  && negb (PyStr.startswith t "http://")
  && negb (PyStr.startswith t "https://")
  && negb (PyStr.startswith t "www.").

(** The invariant the data model states for the timing template. *)
Definition timing_in_range (cfg : Config) : bool :=
  ((0 <=? timing cfg) && (timing cfg <=? 5))%Z.

(** ** Vocabulary of the statements *)

(** What the pattern matches at the start of [s]: the number of characters
    and the text that follows. *)
Definition url_prefix_match (s : string) : nat * string :=
  let '(n, s1) :=
    match PyStr.strip_prefix "https://" s with
    | Some r => (8, r)
    | None =>
        match PyStr.strip_prefix "http://" s with
        | Some r => (7, r)
        | None => (0, s)
        end
    end in
  match PyStr.strip_prefix "www." s1 with
  | Some r => (4 + n, r)
  | None => (n, s1)
  end.

(** A configuration with only the SYN scan selected. *)
Definition syn_only : Config :=
  mkNamespace "example.com" false true false false false false None None
              false false None 4%Z None None None None None.

(** Both script selectors set, at a configuration with everything else
    left out. *)
Definition both_selectors : Config :=
  mkNamespace "example.com" false false false false false false
              (Some "vuln") (Some "http-title.nse")
              false false None 4%Z None None None None None.

(** The configuration the prompts arrive at, attribute by attribute. *)
Definition interactive_config (a : Answers) (level : Z) : Config :=
  let choices := PyStr.split "," (ans_scans a) in
  mkNamespace
    (strip_url (PyStr.strip (ans_target a)))
    false
    (PyStr.contains "1" choices)
    (PyStr.contains "2" choices)
    (PyStr.contains "3" choices)
    (PyStr.contains "4" choices)
    (PyStr.contains "6" choices)
    (or_None (PyStr.strip (ans_script_cats a)))
    (or_None (PyStr.strip (ans_script_file a)))
    (PyStr.contains "5" choices)
    (PyStr.startswith (PyStr.lower (ans_skip_ping a)) "y")
    (or_None (PyStr.strip (ans_decoy a)))
    level
    (Some (or_default (PyStr.strip (ans_ports a)) "1-1000"))
    (Some (or_default (PyStr.strip (ans_output a)) "scan.txt"))
    None None None.

(** Answers that select the SYN scan and version detection and leave every
    other prompt blank. *)
Definition answers_1_4 : Answers :=
  mkAnswers "example.com" "1,4" "" "" "" "" "" "" "".

(** Answers whose scan selection pads the second entry with a space. *)
Definition answers_1_space_4 : Answers :=
  mkAnswers "example.com" "1, 4" "" "" "" "" "" "" "".

(** What [main] prints before it starts the command. *)
Definition running_line (cmd : list string) : output :=
  Text ("Running:" ++ " " ++ PyStr.join " " cmd ++ newline).

(** A machine on which every command ends with status [rc]. *)
Definition host_status (rc : Z) : Host :=
  mkHost (fun _ => Some rc)
         (fun _ rc' => "exit status " ++ PyStr.of_int rc').

(** The configuration [main] reaches for the one argument [example.com]. *)
Definition example_config : Config :=
  set_target "example.com" (Argparse.defaults parser).

(** Answers that ask for timing level 9. *)
Definition answers_timing_9 : Answers :=
  mkAnswers "example.com" "1" "n" "" "" "" "9" "" "".

(** What it means for the parser's actions to keep a property [P] of the
    namespace. *)
Section Keeps.
Variable N : Type.
Variable P : N -> Prop.

(** An action keeps [P] when storing through it does; an action with
    choices stores chosen values only. *)
Definition action_keeps (a : Argparse.action N) : Prop :=
  match a with
  | Argparse.store_true set => forall ns, P ns -> P (set ns)
  | Argparse.store set => forall v ns, P ns -> P (set v ns)
  | Argparse.store_int choices set =>
      forall n ns, In n choices -> P ns -> P (set n ns)
  | Argparse.help => True
  end.

Definition tuple_keeps (t : string * Argparse.action N * option string)
  : Prop := action_keeps (snd (fst t)).

Definition class_keeps (c : Argparse.arg_class N) : Prop :=
  match c with
  | Argparse.known_option _ a _ => action_keeps a
  | _ => True
  end.

End Keeps.

(** A computation that starts no command, whatever the world and however
    it ends. *)
Definition launches_nothing {A : Type} (m : Py A) : Prop :=
  forall w : World, launched (snd (m w)) = launched w.

(** A machine on which no command can be started. *)
Definition host_without_sudo : Host :=
  mkHost (fun _ => None) (fun _ _ => "").

(** The arguments send [main] to the prompts: [-i] is given, or the target
    is missing or empty. *)
Definition goes_interactive (args : Args) : Prop :=
  interactive args = true \/ target args = None \/ target args = Some "".

(** Answers that say [Yes] to skipping host discovery. *)
Definition answers_yes : Answers :=
  mkAnswers "example.com" "" "Yes" "" "" "" "" "" "".

(** Answers padded with white space. *)
Definition answers_padded : Answers :=
  mkAnswers "example.com" "1" "n" "  vuln " "   " "" "" " 1-65535" "out.txt ".

(** What the command holds before its timing token. *)
Definition before_timing (cfg : Config) : list string :=
  (["sudo"] ++ ["nmap"]
   ++ flag (skip_ping cfg) "-Pn"
   ++ flag (syn_scan cfg) "-sS"
   ++ flag (connect_scan cfg) "-sT"
   ++ flag (udp_scan cfg) "-sU"
   ++ flag (version_detect cfg) "-sV"
   ++ flag (script_default cfg) "-sC"
   ++ selector "--script" (script_cats cfg)
   ++ selector "--script" (script_file cfg)
   ++ flag (os_detect cfg) "-O"
   ++ selector "--decoy" (decoy cfg))%list.

(** * Properties *)

(** ** Strings and the matcher *)

Lemma strip_prefix_app (p q s : string) :
  PyStr.strip_prefix (p ++ q) s =
  match PyStr.strip_prefix p s with
  | Some s1 => PyStr.strip_prefix q s1
  | None => None
  end.
Proof.
  revert s. induction p as [|a p IH]; intros s; cbn; [reflexivity|].
  destruct s as [|b s]; [reflexivity|].
  destruct (Ascii.eqb a b); [apply IH | reflexivity].
Qed.

Lemma strip_prefix_length (p s r : string) :
  PyStr.strip_prefix p s = Some r ->
  String.length s = String.length p + String.length r.
Proof.
  revert s. induction p as [|a p IH]; intros s H; cbn in *.
  - now inversion H.
  - destruct s as [|b s]; [discriminate|].
    destruct (Ascii.eqb a b); [|discriminate].
    cbn. now rewrite (IH _ H).
Qed.

Lemma strip_prefix_sound (p s r : string) :
  PyStr.strip_prefix p s = Some r -> s = p ++ r.
Proof.
  revert s. induction p as [|a p IH]; intros s H; cbn in *.
  - now inversion H.
  - destruct s as [|b s]; [discriminate|].
    destruct (Ascii.eqb_spec a b); [|discriminate].
    subst. now rewrite (IH _ H).
Qed.

Lemma strip_prefix_complete (p r : string) :
  PyStr.strip_prefix p (p ++ r) = Some r.
Proof.
  induction p as [|a p IH]; cbn; [reflexivity|].
  now rewrite Ascii.eqb_refl.
Qed.

Lemma rmatch_lit (A : Type) (p : string) (pos : nat) (s : string)
      (k : nat -> string -> option A) :
  Re.rmatch (Re.lit p) pos s k =
  match PyStr.strip_prefix p s with
  | Some s' => k (String.length p + pos) s'
  | None => None
  end.
Proof.
  revert pos s. induction p as [|a p IH]; intros pos s; cbn; [reflexivity|].
  destruct s as [|b s]; [reflexivity|].
  destruct (Ascii.eqb a b); [|reflexivity].
  rewrite IH. destruct (PyStr.strip_prefix p s); [|reflexivity].
  now rewrite Nat.add_succ_r.
Qed.

(** ** The target normalizer *)

Lemma url_prefix_match_contract (s : string) :
  snd (url_prefix_match s) = strip_url_contract s.
Proof.
  unfold url_prefix_match, strip_url_contract, drop_scheme, drop_prefix.
  destruct (PyStr.strip_prefix "https://" s) as [r|].
  - now destruct (PyStr.strip_prefix "www." r).
  - destruct (PyStr.strip_prefix "http://" s) as [r|];
      [now destruct (PyStr.strip_prefix "www." r)|].
    now destruct (PyStr.strip_prefix "www." s).
Qed.

Lemma url_prefix_match_length (s : string) :
  String.length s =
  fst (url_prefix_match s) + String.length (snd (url_prefix_match s)).
Proof.
  unfold url_prefix_match.
  destruct (PyStr.strip_prefix "https://" s) as [r|] eqn:E1.
  - apply strip_prefix_length in E1. cbn in E1.
    destruct (PyStr.strip_prefix "www." r) as [r'|] eqn:E2; cbn; [|lia].
    apply strip_prefix_length in E2. cbn in E2. lia.
  - destruct (PyStr.strip_prefix "http://" s) as [r|] eqn:E3.
    + apply strip_prefix_length in E3. cbn in E3.
      destruct (PyStr.strip_prefix "www." r) as [r'|] eqn:E2; cbn; [|lia].
      apply strip_prefix_length in E2. cbn in E2. lia.
    + destruct (PyStr.strip_prefix "www." s) as [r'|] eqn:E2; cbn; [|lia].
      apply strip_prefix_length in E2. cbn in E2. lia.
Qed.

(** The optional [www.] group under a continuation that takes any match
    that is not empty. *)
Lemma rmatch_www (ma : bool) (pos : nat) (s : string) :
  Re.rmatch (Re.Opt (Re.lit "www.")) pos s (Re.accept ma 0) =
  match PyStr.strip_prefix "www." s with
  | Some r => Some (4 + pos, r)
  | None => Re.accept ma 0 pos s
  end.
Proof.
  cbn [Re.rmatch]. rewrite rmatch_lit.
  destruct (PyStr.strip_prefix "www." s) as [r|]; [|reflexivity].
  unfold Re.accept. cbn. now rewrite andb_false_r.
Qed.

(** The whole pattern at offset 0. *)
Lemma rmatch_url_prefix (ma : bool) (s : string) :
  Re.rmatch url_prefix 0 s (Re.accept ma 0) =
  let '(n, r) := url_prefix_match s in Re.accept ma 0 n r.
Proof.
  assert (W : forall n r,
    Re.rmatch (Re.Opt (Re.lit "www.")) n r (Re.accept ma 0) =
    let '(n', r') := match PyStr.strip_prefix "www." r with
                     | Some r' => (4 + n, r')
                     | None => (n, r)
                     end in Re.accept ma 0 n' r').
  { intros n r. rewrite rmatch_www.
    destruct (PyStr.strip_prefix "www." r); [|reflexivity].
    unfold Re.accept. cbn. now rewrite andb_false_r. }
  assert (W' : forall n r,
    Re.rmatch (Re.Opt (Re.lit "www.")) (S n) r (Re.accept ma 0) <> None).
  { intros n r. rewrite rmatch_www.
    destruct (PyStr.strip_prefix "www." r); [discriminate|].
    unfold Re.accept. cbn. rewrite andb_false_r. discriminate. }
  unfold url_prefix, url_prefix_match.
  change "https://" with ("http" ++ "s" ++ "://").
  change "http://" with ("http" ++ "://").
  rewrite !strip_prefix_app.
  set (www := Re.Opt (Re.lit "www.")) in *.
  cbn [Re.rmatch Nat.eqb]. rewrite rmatch_lit.
  destruct (PyStr.strip_prefix "http" s) as [s1|]; [|apply W].
  cbn [String.length Nat.add].
  assert (T : forall r,
    Re.rmatch (Re.lit "://") 4 r (fun pos' s' => Re.rmatch www pos' s' (Re.accept ma 0)) =
    match PyStr.strip_prefix "://" r with
    | Some r' => Re.rmatch www 7 r' (Re.accept ma 0)
    | None => None
    end).
  { intros r. now rewrite rmatch_lit. }
  assert (T5 : forall r,
    Re.rmatch (Re.lit "://") 5 r (fun pos' s' => Re.rmatch www pos' s' (Re.accept ma 0)) =
    match PyStr.strip_prefix "://" r with
    | Some r' => Re.rmatch www 8 r' (Re.accept ma 0)
    | None => None
    end).
  { intros r. now rewrite rmatch_lit. }
  destruct s1 as [|c s2].
  - cbn. apply W.
  - destruct (Ascii.eqb_spec "s"%char c) as [<-|Hc].
    + change (PyStr.strip_prefix ("s" ++ "://") (String "s" s2))
        with (PyStr.strip_prefix "://" s2).
      rewrite T5.
      destruct (PyStr.strip_prefix "://" s2) as [s3|].
      * destruct (Re.rmatch www 8 s3 (Re.accept ma 0)) eqn:E;
          [|now apply W' in E].
        rewrite <- E. apply W.
      * rewrite T. cbn. apply W.
    + change (PyStr.strip_prefix ("s" ++ "://") (String c s2))
        with (if Ascii.eqb "s" c then PyStr.strip_prefix "://" s2 else None).
      cbn [Re.rmatch].
      destruct (Ascii.eqb "s" c) eqn:E0;
        [apply Ascii.eqb_eq in E0; congruence|].
      rewrite T.
      destruct (PyStr.strip_prefix "://" (String c s2)) as [s3|].
      * destruct (Re.rmatch www 7 s3 (Re.accept ma 0)) eqn:E;
          [|now apply W' in E].
        rewrite <- E. apply W.
      * apply W.
Qed.

Lemma search_eq (r : Re.regex) (pos : nat) (s : string) (ma : bool) :
  Re.search r pos s ma =
  match Re.rmatch r pos s (Re.accept ma pos) with
  | Some (e, s') => Some (Re.mkFound EmptyString e s' (e =? pos))
  | None =>
      match s with
      | EmptyString => None
      | String c s' =>
          match Re.search r (S pos) s' false with
          | Some f => Some (Re.mkFound (String c (Re.skipped f)) (Re.end_pos f)
                                       (Re.rest f) (Re.was_empty f))
          | None => None
          end
      end
  end.
Proof. destruct s; reflexivity. Qed.

(** The anchor keeps the pattern from matching anywhere but at offset 0. *)
Lemma search_url_prefix_later (s : string) (pos : nat) (ma : bool) :
  Re.search url_prefix (S pos) s ma = None.
Proof.
  revert pos ma. induction s as [|c s IH]; intros pos ma.
  - reflexivity.
  - rewrite search_eq. unfold url_prefix at 1. cbn [Re.rmatch Nat.eqb].
    now rewrite IH.
Qed.

Lemma url_prefix_match_empty (s : string) :
  fst (url_prefix_match s) = 0 -> url_prefix_match s = (0, s).
Proof.
  unfold url_prefix_match.
  destruct (PyStr.strip_prefix "https://" s) as [r|].
  - destruct (PyStr.strip_prefix "www." r); discriminate.
  - destruct (PyStr.strip_prefix "http://" s) as [r|].
    + destruct (PyStr.strip_prefix "www." r); discriminate.
    + destruct (PyStr.strip_prefix "www." s); [discriminate | reflexivity].
Qed.

(** One replacement, at the start: [strip_url] returns what follows the
    matched prefix. *)
Lemma strip_url_match (s : string) : strip_url s = snd (url_prefix_match s).
Proof.
  unfold strip_url, Re.sub. rewrite Nat.add_comm. cbn [Nat.add Re.sub_loop].
  rewrite search_eq, rmatch_url_prefix.
  destruct (url_prefix_match s) as [n r] eqn:E.
  cbn [Re.accept andb Re.skipped Re.end_pos Re.rest Re.was_empty snd].
  destruct n as [|n].
  - apply (f_equal fst) in E as E0. cbn in E0.
    apply url_prefix_match_empty in E0. rewrite E0 in E. inversion E; subst r.
    rewrite search_eq, rmatch_url_prefix, E0. cbn [Re.accept andb Nat.eqb].
    destruct s as [|c s']; [reflexivity|].
    now rewrite search_url_prefix_later.
  - now rewrite search_url_prefix_later.
Qed.

Lemma strip_url_spec (s : string) : strip_url s = strip_url_contract s.
Proof. rewrite strip_url_match. apply url_prefix_match_contract. Qed.

(** C3. For every input string, [strip_url] removes an optional leading
    [http://] or [https://], then an optional leading [www.], and returns
    the remainder unchanged; [https://www.example.com] becomes [example.com],
    [www.test.org] becomes [test.org], and [example.com] stays as it is. *)
Theorem strip_url_removes_scheme_then_www :
  (forall s : string, strip_url s = strip_url_contract s) /\
  strip_url "https://www.example.com" = "example.com" /\
  strip_url "www.test.org" = "test.org" /\
  strip_url "example.com" = "example.com".
Proof.
  split; [exact strip_url_spec|].
  repeat split; reflexivity.
Qed.

(** ** The command builder *)

Lemma when_append (b : bool) (token : string) (cmd : list string) :
  when b (append token) cmd = (cmd ++ flag b token)%list.
Proof. destruct b; cbn; [reflexivity | now rewrite app_nil_r]. Qed.

Lemma when_set_extend (name : string) (value : option string)
      (cmd : list string) :
  when_set value (fun v => extend [name; v]) cmd
  = (cmd ++ selector name value)%list.
Proof.
  destruct value as [v|]; cbn; [|now rewrite app_nil_r].
  destruct (PyStr.nonempty v); cbn; [reflexivity | now rewrite app_nil_r].
Qed.

Lemma build_command_contract (cfg : Config) :
  build_command cfg = command_contract cfg.
Proof.
  unfold build_command. cbv zeta.
  rewrite !when_set_extend, !when_append. unfold append.
  unfold command_contract. rewrite <- !app_assoc. reflexivity.
Qed.

(** C1. For every configuration the command builder yields exactly the
    fixed token sequence: [sudo], [nmap], the skip-ping, SYN, connect, UDP,
    version-detect and default-script flags, the script-category selector,
    the script-file selector (two separate selectors, categories first, when
    both are set), the OS-detect flag, the decoy list, the timing token
    [-T<level>] (always present, one token), the port range, the target and
    the output files in the order normal, XML, grepable, JSON. A flag or
    value that is not set contributes no token, and equal configurations
    give equal token lists. *)
Theorem build_command_fixed_order :
  (forall cfg : Config, build_command cfg = command_contract cfg) /\
  (forall cfg1 cfg2 : Config,
      cfg1 = cfg2 -> build_command cfg1 = build_command cfg2) /\
  (forall (cfg : Config) (cats file : string),
      script_cats cfg = Some cats -> script_file cfg = Some file ->
      cats <> "" -> file <> "" ->
      exists before after,
        build_command cfg =
        (before ++ ["--script"; cats; "--script"; file] ++ after)%list) /\
  build_command syn_only = ["sudo"; "nmap"; "-sS"; "-T4"; "example.com"].
Proof.
  split; [exact build_command_contract|].
  split; [now intros cfg1 cfg2 ->|].
  split; [|reflexivity].
  intros cfg cats file Hc Hf Hc0 Hf0.
  rewrite build_command_contract. unfold command_contract.
  rewrite Hc, Hf.
  destruct cats as [|c cats]; [congruence|].
  destruct file as [|f file]; [congruence|].
  cbn [selector PyStr.nonempty].
  eexists (["sudo"] ++ ["nmap"] ++ flag (skip_ping cfg) "-Pn"
           ++ flag (syn_scan cfg) "-sS" ++ flag (connect_scan cfg) "-sT"
           ++ flag (udp_scan cfg) "-sU" ++ flag (version_detect cfg) "-sV"
           ++ flag (script_default cfg) "-sC")%list, _.
  rewrite <- !app_assoc. cbn [app]. reflexivity.
Qed.

Lemma build_command_fixed_order_witness :
  build_command both_selectors = command_contract both_selectors /\
  build_command both_selectors = build_command both_selectors /\
  exists before after,
    build_command both_selectors =
    (before ++ ["--script"; "vuln"; "--script"; "http-title.nse"] ++ after)%list.
Proof.
  destruct build_command_fixed_order as [H1 [H2 [H3 _]]].
  split; [apply H1|].
  split; [apply H2; reflexivity|].
  apply H3; [reflexivity | reflexivity | discriminate | discriminate].
Defined.

(** C9. An optional string attribute that holds the empty string is
    treated as an absent one: for each of the script categories, the script
    file, the decoy list, the port range and the four output paths, the
    command built with the attribute set to [""] is the command built with
    it set to [None]. *)
Theorem build_command_empty_string_as_absent (cfg : Config) :
  build_command (set_script_cats (Some "") cfg)
  = build_command (set_script_cats None cfg) /\
  build_command (set_script_file (Some "") cfg)
  = build_command (set_script_file None cfg) /\
  build_command (set_decoy (Some "") cfg)
  = build_command (set_decoy None cfg) /\
  build_command (set_ports (Some "") cfg)
  = build_command (set_ports None cfg) /\
  build_command (set_output_normal (Some "") cfg)
  = build_command (set_output_normal None cfg) /\
  build_command (set_output_xml (Some "") cfg)
  = build_command (set_output_xml None cfg) /\
  build_command (set_output_grep (Some "") cfg)
  = build_command (set_output_grep None cfg) /\
  build_command (set_output_json (Some "") cfg)
  = build_command (set_output_json None cfg).
Proof. repeat split; reflexivity. Qed.

(** ** The interactive prompt sequence *)

(** With nine answers waiting and a readable timing answer, the prompt
    sequence runs to its end and returns. *)
Lemma interactive_mode_run (argv : list string) (args : Args) (a : Answers)
      (level : Z) (w : World) (rest : list string) :
  parse_args argv = Argparse.Parsed args ->
  stdin w = (answer_lines a ++ rest)%list ->
  timing_level (ans_timing a) = Some level ->
  interactive_mode argv w =
  (Ret (interactive_config a level),
   mkWorld rest (stdout w ++ interactive_prompts)%list (stderr w) (launched w)).
Proof.
  intros Hparse Hin Hlevel.
  destruct w as [sin sout serr la]. cbn in Hin. subst sin.
  destruct a as [t c sp cats file dec tm ports out].
  unfold timing_level in Hlevel. cbn [ans_timing] in Hlevel.
  unfold interactive_mode, bind, print, input, write_stdout, run_parse_args.
  cbn [stdin stdout stderr launched answer_lines ans_target ans_scans
       ans_skip_ping ans_script_cats ans_script_file ans_decoy ans_timing
       ans_ports ans_output app].
  rewrite Hparse. unfold ret at 1.
  cbn [stdin stdout stderr launched].
  destruct (PyStr.nonempty tm).
  - unfold int. rewrite Hlevel. unfold ret.
    cbn [stdin stdout stderr launched].
    unfold interactive_prompts. rewrite <- !app_assoc. reflexivity.
  - inversion Hlevel; subst level. unfold ret.
    cbn [stdin stdout stderr launched].
    unfold interactive_prompts. rewrite <- !app_assoc. reflexivity.
Qed.

(** Conversely, a prompt sequence that returns has read nine answers, the
    timing answer among them readable. *)
Lemma interactive_mode_inv (argv : list string) (w w' : World) (cfg : Config) :
  interactive_mode argv w = (Ret cfg, w') ->
  exists (a : Answers) (level : Z) (rest : list string),
    stdin w = (answer_lines a ++ rest)%list /\
    timing_level (ans_timing a) = Some level /\
    cfg = interactive_config a level /\
    w' = mkWorld rest (stdout w ++ interactive_prompts)%list (stderr w)
                 (launched w).
Proof.
  intros H.
  destruct w as [sin sout serr la].
  destruct sin as [|t [|c [|sp [|cats [|file [|dec [|tm [|ports [|out rest]]]]]]]]].
  all: unfold interactive_mode, bind, print, input, write_stdout,
         run_parse_args in H;
       cbn [stdin stdout stderr launched] in H;
       try discriminate H.
  all: destruct (parse_args argv) as [args| |] eqn:Hparse;
       unfold ret, sys_exit, write_stderr, write_stdout in H;
       cbn [stdin stdout stderr launched] in H;
       try discriminate H.
  all: destruct (PyStr.nonempty _) eqn:Htm in H;
       [unfold int in H; destruct (PyStr.to_int _) as [level|] eqn:Hint in H|];
       unfold ret, raise in H; cbn [stdin stdout stderr launched] in H;
       try discriminate H.
  - exists (mkAnswers t c sp cats file dec tm ports out), level, rest.
    inversion H; subst. unfold timing_level. cbn [ans_timing].
    rewrite Htm, Hint. repeat split.
    unfold interactive_prompts. cbn [stdout]. now rewrite <- !app_assoc.
  - exists (mkAnswers t c sp cats file dec tm ports out), 4%Z, rest.
    inversion H; subst. unfold timing_level. cbn [ans_timing].
    rewrite Htm. repeat split.
    unfold interactive_prompts. cbn [stdout]. now rewrite <- !app_assoc.
Qed.

(** *** Scan selection *)

Lemma contains_In (x : string) (xs : list string) :
  PyStr.contains x xs = true <-> In x xs.
Proof.
  unfold PyStr.contains. rewrite existsb_exists. split.
  - intros [y [Hy E]]. apply String.eqb_eq in E. now subst.
  - intros H. exists x. split; [exact H | apply String.eqb_refl].
Qed.

Lemma split_nonempty (sep : ascii) (s : string) : PyStr.split sep s <> [].
Proof.
  induction s as [|c s IH]; cbn; [discriminate|].
  destruct (Ascii.eqb c sep); [discriminate|].
  destruct (PyStr.split sep s); [contradiction | discriminate].
Qed.

(** An entry without a comma, followed by a comma, is split off whole. *)
Lemma split_entry (e s : string) :
  comma_free e = true ->
  PyStr.split "," (e ++ "," ++ s) = e :: PyStr.split "," s.
Proof.
  unfold comma_free. induction e as [|c e IH]; intros H.
  - reflexivity.
  - cbn in H. apply negb_true_iff, orb_false_iff in H as [Hc He].
    cbn [String.append PyStr.split] in IH |- *. rewrite Hc.
    rewrite IH by now rewrite He. reflexivity.
Qed.

Lemma split_last_entry (e : string) :
  comma_free e = true -> PyStr.split "," e = [e].
Proof.
  unfold comma_free. induction e as [|c e IH]; intros H.
  - reflexivity.
  - cbn in H. apply negb_true_iff, orb_false_iff in H as [Hc He].
    cbn [PyStr.split]. rewrite Hc.
    rewrite IH by now rewrite He. reflexivity.
Qed.

(** Splitting undoes joining, for entries that hold no comma. *)
Lemma split_join (entries : list string) :
  entries <> [] ->
  forallb comma_free entries = true ->
  PyStr.split "," (PyStr.join "," entries) = entries.
Proof.
  induction entries as [|e es IH]; intros Hne Hcf; [contradiction|].
  cbn in Hcf. apply andb_true_iff in Hcf as [He Hes].
  destruct es as [|e' es].
  - cbn. now apply split_last_entry.
  - change (PyStr.join "," (e :: e' :: es))
      with (e ++ "," ++ PyStr.join "," (e' :: es)).
    rewrite split_entry by exact He.
    now rewrite IH.
Qed.

(** C6. The scan selection is one line of comma-separated entries. With
    the line made of the entries [entries], each of the numbers 1 to 6 sets
    its own flag exactly when it is among the entries (1 SYN, 2 connect,
    3 UDP, 4 version detection, 5 OS detection, 6 default scripts); any other
    entry changes nothing and the prompts still run to the end; repeating an
    entry changes nothing. The line [1,4] sets SYN and version detection and
    no other scan flag. *)
Theorem interactive_scan_selection (argv : list string) (args : Args)
        (a : Answers) (level : Z) (w : World) (rest : list string) :
  parse_args argv = Argparse.Parsed args ->
  stdin w = (answer_lines a ++ rest)%list ->
  timing_level (ans_timing a) = Some level ->
  exists (cfg : Config) (w' : World),
    interactive_mode argv w = (Ret cfg, w') /\
    (forall entries : list string,
        entries <> [] ->
        forallb comma_free entries = true ->
        ans_scans a = PyStr.join "," entries ->
        (syn_scan cfg = true <-> In "1" entries) /\
        (connect_scan cfg = true <-> In "2" entries) /\
        (udp_scan cfg = true <-> In "3" entries) /\
        (version_detect cfg = true <-> In "4" entries) /\
        (os_detect cfg = true <-> In "5" entries) /\
        (script_default cfg = true <-> In "6" entries)) /\
    (ans_scans a = "1,4" ->
     syn_scan cfg = true /\ version_detect cfg = true /\
     connect_scan cfg = false /\ udp_scan cfg = false /\
     os_detect cfg = false /\ script_default cfg = false).
Proof.
  intros Hparse Hin Hlevel.
  eexists _, _. split; [eapply interactive_mode_run; eassumption|].
  cbn [interactive_config syn_scan connect_scan udp_scan version_detect
       os_detect script_default].
  split.
  - intros entries Hne Hcf ->. rewrite (split_join Hne Hcf).
    repeat split; now apply contains_In.
  - intros ->. repeat split.
Qed.

Lemma interactive_scan_selection_witness :
  exists (cfg : Config) (w' : World),
    interactive_mode [] (initial (answer_lines answers_1_4)) = (Ret cfg, w') /\
    syn_scan cfg = true /\ version_detect cfg = true /\
    connect_scan cfg = false /\ udp_scan cfg = false /\
    os_detect cfg = false /\ script_default cfg = false.
Proof.
  destruct (@interactive_scan_selection [] (Argparse.defaults parser)
              answers_1_4 4%Z (initial (answer_lines answers_1_4)) [])
    as [cfg [w' [Hrun [_ H14]]]].
  - reflexivity.
  - reflexivity.
  - reflexivity.
  - exists cfg, w'. split; [exact Hrun | apply H14; reflexivity].
Defined.

(** C10. The entries of the scan selection are compared as they stand,
    without trimming: a number sets its flag exactly when it is an element
    of the line split at its commas. The line [1, 4] splits into [1] and
    [ 4]; the second is no number the prompt knows, so only SYN is set. *)
Theorem interactive_scan_entries_exact (argv : list string) (args : Args)
        (a : Answers) (level : Z) (w : World) (rest : list string) :
  parse_args argv = Argparse.Parsed args ->
  stdin w = (answer_lines a ++ rest)%list ->
  timing_level (ans_timing a) = Some level ->
  exists (cfg : Config) (w' : World),
    interactive_mode argv w = (Ret cfg, w') /\
    (syn_scan cfg = true <-> In "1" (PyStr.split "," (ans_scans a))) /\
    (connect_scan cfg = true <-> In "2" (PyStr.split "," (ans_scans a))) /\
    (udp_scan cfg = true <-> In "3" (PyStr.split "," (ans_scans a))) /\
    (version_detect cfg = true <-> In "4" (PyStr.split "," (ans_scans a))) /\
    (os_detect cfg = true <-> In "5" (PyStr.split "," (ans_scans a))) /\
    (script_default cfg = true <-> In "6" (PyStr.split "," (ans_scans a))) /\
    (ans_scans a = "1, 4" ->
     PyStr.split "," (ans_scans a) = ["1"; " 4"] /\
     syn_scan cfg = true /\ version_detect cfg = false /\
     connect_scan cfg = false /\ udp_scan cfg = false /\
     os_detect cfg = false /\ script_default cfg = false).
Proof.
  intros Hparse Hin Hlevel.
  eexists _, _. split; [eapply interactive_mode_run; eassumption|].
  cbn [interactive_config syn_scan connect_scan udp_scan version_detect
       os_detect script_default].
  repeat (split; [now apply contains_In|]).
  intros ->. repeat split.
Qed.

Lemma interactive_scan_entries_exact_witness :
  exists (cfg : Config) (w' : World),
    interactive_mode [] (initial (answer_lines answers_1_space_4))
    = (Ret cfg, w') /\
    syn_scan cfg = true /\ version_detect cfg = false.
Proof.
  destruct (@interactive_scan_entries_exact [] (Argparse.defaults parser)
              answers_1_space_4 4%Z
              (initial (answer_lines answers_1_space_4)) [])
    as [cfg [w' [Hrun [_ [_ [_ [_ [_ [_ H]]]]]]]]].
  - reflexivity.
  - reflexivity.
  - reflexivity.
  - exists cfg, w'. split; [exact Hrun|].
    destruct (H eq_refl) as [_ [Hs [Hv _]]]. now split.
Defined.

(** *** Blank answers *)

(** C7. A blank answer to a free-text prompt gives the attribute its
    default, not the empty string: [None] for the script categories, the
    script file and the decoys, [1-1000] for the ports, [scan.txt] for the
    normal output file, and 4 for the empty timing answer. The answers other
    than the timing are stripped first, so an answer of white space counts as
    blank like the empty one. The XML, grepable and JSON output paths are
    not asked for and stay [None]. *)
Theorem interactive_blank_defaults (argv : list string) (args : Args)
        (a : Answers) (level : Z) (w : World) (rest : list string) :
  parse_args argv = Argparse.Parsed args ->
  stdin w = (answer_lines a ++ rest)%list ->
  timing_level (ans_timing a) = Some level ->
  exists (cfg : Config) (w' : World),
    interactive_mode argv w = (Ret cfg, w') /\
    (PyStr.strip (ans_script_cats a) = "" -> script_cats cfg = None) /\
    (PyStr.strip (ans_script_file a) = "" -> script_file cfg = None) /\
    (PyStr.strip (ans_decoy a) = "" -> decoy cfg = None) /\
    (PyStr.strip (ans_ports a) = "" -> ports cfg = Some "1-1000") /\
    (PyStr.strip (ans_output a) = "" -> output_normal cfg = Some "scan.txt") /\
    (ans_timing a = "" -> timing cfg = 4%Z) /\
    output_xml cfg = None /\ output_grep cfg = None /\ output_json cfg = None.
Proof.
  intros Hparse Hin Hlevel.
  eexists _, _. split; [eapply interactive_mode_run; eassumption|].
  cbn [interactive_config script_cats script_file decoy ports output_normal
       timing output_xml output_grep output_json].
  repeat split; try (intros ->; reflexivity).
  intros E. unfold timing_level in Hlevel. rewrite E in Hlevel.
  cbn in Hlevel. congruence.
Qed.

Lemma interactive_blank_defaults_witness :
  exists (cfg : Config) (w' : World),
    interactive_mode [] (initial (answer_lines answers_1_4)) = (Ret cfg, w') /\
    script_cats cfg = None /\ script_file cfg = None /\ decoy cfg = None /\
    ports cfg = Some "1-1000" /\ output_normal cfg = Some "scan.txt" /\
    timing cfg = 4%Z /\
    output_xml cfg = None /\ output_grep cfg = None /\ output_json cfg = None.
Proof.
  destruct (@interactive_blank_defaults [] (Argparse.defaults parser)
              answers_1_4 4%Z (initial (answer_lines answers_1_4)) [])
    as [cfg [w' [Hrun [H1 [H2 [H3 [H4 [H5 [H6 [H7 [H8 H9]]]]]]]]]]].
  - reflexivity.
  - reflexivity.
  - reflexivity.
  - exists cfg, w'.
    repeat (split; [first [assumption | apply H1 | apply H2 | apply H3
                          | apply H4 | apply H5 | apply H6]; reflexivity|]).
    exact H9.
Defined.

(** ** The driver *)

(** C8. When the arguments name no target (or an empty one), or give the
    interactive flag, [main] does not fail: it hands over to the interactive
    prompt sequence, which runs and produces the configuration. *)
Theorem missing_target_goes_interactive (argv : list string) (args : Args)
        (a : Answers) (level : Z) (w : World) (rest : list string) :
  parse_args argv = Argparse.Parsed args ->
  interactive args = true \/ target args = None \/ target args = Some "" ->
  stdin w = (answer_lines a ++ rest)%list ->
  timing_level (ans_timing a) = Some level ->
  configure argv w = interactive_mode argv w /\
  exists cfg : Config,
    configure argv w =
    (Ret cfg,
     mkWorld rest (stdout w ++ interactive_prompts)%list (stderr w)
             (launched w)).
Proof.
  intros Hparse Hcase Hin Hlevel.
  assert (E : configure argv w = interactive_mode argv w).
  { unfold configure, bind, run_parse_args. rewrite Hparse. unfold ret.
    destruct Hcase as [Hi | [Ht | Ht]].
    - rewrite Hi. now destruct (target args).
    - now rewrite Ht.
    - rewrite Ht. cbn. now rewrite orb_true_r. }
  split; [exact E|].
  rewrite E. eexists. eapply interactive_mode_run; eassumption.
Qed.

Lemma missing_target_goes_interactive_witness :
  configure [] (initial (answer_lines answers_1_4))
  = interactive_mode [] (initial (answer_lines answers_1_4)) /\
  exists cfg : Config,
    configure [] (initial (answer_lines answers_1_4)) =
    (Ret cfg, mkWorld [] interactive_prompts [] []).
Proof.
  apply (@missing_target_goes_interactive [] (Argparse.defaults parser)
           answers_1_4 4%Z (initial (answer_lines answers_1_4)) []).
  - reflexivity.
  - right. left. reflexivity.
  - reflexivity.
  - reflexivity.
Defined.

(** C2. Once the command has been launched and has ended: with status 0,
    [main] prints [Scan complete.] and returns; with a status [rc] other
    than 0, it writes an [Error: ...] line to standard error and exits with
    status [rc], the child's own. *)
Theorem process_runner_reports (host : Host) (argv : list string)
        (w w1 : World) (cfg : Config) (rc : Z) :
  configure argv w = (Ret cfg, w1) ->
  spawn host (build_command cfg) = Some rc ->
  (rc = 0%Z ->
   main host argv w =
   (Ret tt,
    mkWorld (stdin w1)
            (stdout w1 ++ [running_line (build_command cfg);
                           Text ("Scan complete." ++ newline)])%list
            (stderr w1)
            (launched w1 ++ [build_command cfg])%list)) /\
  (rc <> 0%Z ->
   main host argv w =
   (Exit rc,
    mkWorld (stdin w1)
            (stdout w1 ++ [running_line (build_command cfg)])%list
            (stderr w1 ++ [Text ("Error: "
                                 ++ describe host (build_command cfg) rc
                                 ++ newline)])%list
            (launched w1 ++ [build_command cfg])%list)).
Proof.
  intros Hcfg Hspawn.
  unfold main, bind. rewrite Hcfg.
  unfold execute, bind, try_except_CalledProcessError, subprocess_run, print,
    eprint, write_stdout, write_stderr, sys_exit.
  cbn [stdin stdout stderr launched]. rewrite Hspawn.
  split.
  - intros ->. cbn [Z.eqb stdin stdout stderr launched].
    unfold running_line. rewrite <- !app_assoc. reflexivity.
  - intros Hrc. destruct (Z.eqb_spec rc 0); [contradiction|].
    cbn [stdin stdout stderr launched].
    unfold running_line. reflexivity.
Qed.

Lemma process_runner_reports_witness :
  fst (main (host_status 0) ["example.com"] (initial [])) = Ret tt /\
  fst (main (host_status 3) ["example.com"] (initial [])) = Exit 3%Z /\
  stderr (snd (main (host_status 3) ["example.com"] (initial [])))
  = [Text ("Error: exit status 3" ++ newline)].
Proof.
  pose proof (@process_runner_reports (host_status 0) ["example.com"]
                (initial []) (initial []) example_config 0%Z
                eq_refl eq_refl) as [H0 _].
  pose proof (@process_runner_reports (host_status 3) ["example.com"]
                (initial []) (initial []) example_config 3%Z
                eq_refl eq_refl) as [_ H3].
  rewrite (H0 eq_refl).
  rewrite (H3 ltac:(discriminate)).
  repeat split.
Defined.

(** *** The timing template *)

(** C4. The timing template is meant to stay within 0..5, whichever way
    the configuration is produced. The interactive prompts do not check it:
    started without arguments and answered with timing 9, the finalized
    configuration has timing 9, outside the range, and the command that is
    launched carries [-T9]. *)
Theorem interactive_timing_unchecked :
  exists (cfg : Config) (w' : World),
    configure [] (initial (answer_lines answers_timing_9)) = (Ret cfg, w') /\
    timing cfg = 9%Z /\
    timing_in_range cfg = false /\
    launched (snd (main (host_status 0) []
                        (initial (answer_lines answers_timing_9))))
    = [["sudo"; "nmap"; "-sS"; "-T9"; "-p"; "1-1000"; "example.com";
        "-oN"; "scan.txt"]].
Proof.
  exists (interactive_config answers_timing_9 9%Z),
         (mkWorld [] interactive_prompts [] []).
  repeat split.
Qed.

(** *** What the argument parser guarantees *)

Section ParserInvariant.
Variable N : Type.
Variable p : Argparse.ArgumentParser N.
Variable P : N -> Prop.

Hypothesis defaults_ok : P (Argparse.defaults p).
Hypothesis positional_ok :
  forall v ns, P ns -> P (Argparse.positional p v ns).
Hypothesis optionals_ok :
  forall strs a, In (strs, a) (Argparse.optionals p) -> action_keeps P a.

Lemma option_string_actions_keep (s : string) (a : Argparse.action N) :
  In (s, a) (Argparse.option_string_actions p) -> action_keeps P a.
Proof.
  unfold Argparse.option_string_actions. rewrite in_flat_map.
  intros [[strs a'] [Hin Hs]]. apply in_map_iff in Hs as [s' [E _]].
  inversion E; subst. eapply optionals_ok; eassumption.
Qed.

Lemma find_option_keeps (s : string) (a : Argparse.action N) :
  Argparse.find_option p s = Some a -> action_keeps P a.
Proof.
  unfold Argparse.find_option.
  destruct (find _ _) as [[o a']|] eqn:E; [|discriminate].
  intros H; inversion H; subst. apply find_some in E as [Hin _].
  eapply option_string_actions_keep; eassumption.
Qed.

Lemma option_tuples_keep (arg : string) :
  Forall (tuple_keeps P) (Argparse.option_tuples p arg).
Proof.
  apply Forall_forall. intros [[o a] e] Hin. unfold tuple_keeps. cbn.
  unfold Argparse.option_tuples in Hin.
  destruct arg as [|c0 [|c1 tail]]; try contradiction.
  destruct (Ascii.eqb c1 "-").
  - destruct (Argparse.partition "=" _) as [[o' e']|];
      apply in_flat_map in Hin as [[o2 a2] [Hin2 Hsel]];
      destruct (PyStr.startswith o2 _); try contradiction;
      destruct Hsel as [E|[]]; inversion E; subst;
      eapply option_string_actions_keep; eassumption.
  - apply in_flat_map in Hin as [[o2 a2] [Hin2 Hsel]].
    destruct (String.eqb o2 _);
      [|destruct (PyStr.startswith o2 _); try contradiction];
      destruct Hsel as [E|[]]; inversion E; subst;
      eapply option_string_actions_keep; eassumption.
Qed.

Lemma parse_optional_keeps (arg : string) (c : Argparse.arg_class N) :
  Argparse.parse_optional p arg = inr c -> class_keeps P c.
Proof.
  unfold Argparse.parse_optional.
  destruct arg as [|c0 arg']; [intros H; inversion H; exact I|].
  destruct (negb _); [intros H; inversion H; exact I|].
  destruct (Argparse.find_option p (String c0 arg')) as [a|] eqn:Ef.
  { intros H; inversion H; subst. cbn. eapply find_option_keeps; eassumption. }
  destruct (String.length _ =? 1); [intros H; inversion H; exact I|].
  destruct (Argparse.partition "=" _) as [[o e]|].
  - destruct (Argparse.find_option p o) as [a|] eqn:Eo.
    { intros H; inversion H; subst. cbn.
      eapply find_option_keeps; eassumption. }
    pose proof (option_tuples_keep (String c0 arg')) as Ht.
    destruct (Argparse.option_tuples p _) as [|[[o1 a1] e1] [|t2 ts]];
      intros H; try discriminate H.
    + destruct (Argparse.negative_number _);
        [|destruct (Argparse.has_char _ _)]; inversion H; exact I.
    + inversion H; subst. cbn. now inversion Ht.
  - pose proof (option_tuples_keep (String c0 arg')) as Ht.
    destruct (Argparse.option_tuples p _) as [|[[o1 a1] e1] [|t2 ts]];
      intros H; try discriminate H.
    + destruct (Argparse.negative_number _);
        [|destruct (Argparse.has_char _ _)]; inversion H; exact I.
    + inversion H; subst. cbn. now inversion Ht.
Qed.

Lemma classify_keeps (args : list string)
      (items : list (string * Argparse.arg_class N)) :
  Argparse.classify p args = inr items ->
  Forall (fun it => class_keeps P (snd it)) items.
Proof.
  revert items. induction args as [|a args IH]; intros items H; cbn in H.
  - inversion H. constructor.
  - destruct (String.eqb a "--").
    + inversion H; subst. constructor; [exact I|].
      apply Forall_forall. intros it Hin.
      apply in_map_iff in Hin as [x [<- _]]. exact I.
    + destruct (Argparse.parse_optional p a) as [e|c] eqn:Ec;
        [discriminate|].
      destruct (Argparse.classify p args) as [e|cs]; [discriminate|].
      inversion H; subst. constructor.
      * cbn. eapply parse_optional_keeps; eassumption.
      * now apply IH.
Qed.

Lemma joined_keeps (e opt : string) (a : Argparse.action N)
      (passed passed' : list (string * Argparse.action N * option string))
      (last : string * Argparse.action N * option string) :
  action_keeps P a -> Forall (tuple_keeps P) passed ->
  Argparse.joined p opt a e passed = inr (passed', last) ->
  Forall (tuple_keeps P) passed' /\ tuple_keeps P last.
Proof.
  revert opt a passed.
  induction e as [|c e IH]; intros opt a passed Ha Hp H; cbn in H.
  - destruct (Argparse.takes_argument a);
      [inversion H; subst; now split|].
    destruct (Argparse.long_option opt); discriminate.
  - destruct (Argparse.takes_argument a);
      [inversion H; subst; now split|].
    destruct (Argparse.long_option opt); [discriminate|].
    destruct (Argparse.find_option p _) as [a'|] eqn:Ef; [|discriminate].
    apply find_option_keeps in Ef.
    assert (Hp' : Forall (tuple_keeps P) (passed ++ [(opt, a, None)])%list).
    { apply Forall_app. split; [exact Hp|]. now constructor. }
    destruct e as [|c' e'].
    + inversion H; subst. now split.
    + eapply IH; eassumption.
Qed.

Lemma take_actions_keep
      (ts : list (string * Argparse.action N * option string)) (ns ns' : N) :
  Forall (tuple_keeps P) ts -> P ns ->
  Argparse.take_actions ts ns = Argparse.Parsed ns' -> P ns'.
Proof.
  revert ns. induction ts as [|[[o a] v] ts IH]; intros ns Hts Hns H.
  - cbn in H. now inversion H; subst.
  - inversion Hts as [|? ? Ht Hts']; subst. unfold tuple_keeps in Ht.
    cbn in Ht. cbn [Argparse.take_actions] in H.
    destruct (Argparse.take_action (o, a, v) ns) as [ns1| |] eqn:E;
      try discriminate H.
    apply (IH ns1); [exact Hts'| |exact H].
    unfold Argparse.take_action in E.
    destruct a as [set|set|choices set|]; cbn in Ht.
    + inversion E; subst. now apply Ht.
    + destruct v; inversion E; subst. now apply Ht.
    + destruct v as [v|]; [|discriminate].
      destruct (PyStr.to_int v) as [n|]; [|discriminate].
      destruct (existsb (Z.eqb n) choices) eqn:Ex; [|discriminate].
      inversion E; subst. apply Ht; [|exact Hns].
      apply existsb_exists in Ex as [x [Hx Ee]].
      apply Z.eqb_eq in Ee. now subst.
    + discriminate.
Qed.

Lemma with_ns_parsed (st st' : Argparse.state N) (r : Argparse.result N)
      (k : Argparse.state N -> Argparse.result (Argparse.state N)) :
  Argparse.with_ns st r k = Argparse.Parsed st' ->
  exists ns', r = Argparse.Parsed ns' /\
              k (Argparse.mkState ns' (Argparse.st_seen_positional st)
                                  (Argparse.st_extras st))
              = Argparse.Parsed st'.
Proof. destruct r; cbn; intros H; try discriminate. eauto. Qed.

Lemma consume_keeps (n : nat) :
  forall (items : list (string * Argparse.arg_class N))
         (st st' : Argparse.state N),
    length items <= n ->
    Forall (fun it => class_keeps P (snd it)) items ->
    P (Argparse.st_ns st) ->
    Argparse.consume p items st = Argparse.Parsed st' ->
    P (Argparse.st_ns st').
Proof.
  induction n as [|n IH]; intros items st st' Hlen Hitems Hst H.
  - destruct items; [|cbn in Hlen; lia]. cbn in H. now inversion H; subst.
  - destruct items as [|[a c] rest]; [cbn in H; now inversion H; subst|].
    cbn in Hlen. inversion Hitems as [|? ? Hc Hrest]; subst. cbn in Hc.
    assert (Step : forall ts rest' st1,
               length rest' <= n ->
               Forall (fun it => class_keeps P (snd it)) rest' ->
               Forall (tuple_keeps P) ts ->
               Argparse.with_ns st (Argparse.take_actions ts (Argparse.st_ns st))
                                (Argparse.consume p rest')
               = Argparse.Parsed st1 ->
               P (Argparse.st_ns st1)).
    { intros ts rest' st1 Hl Hr Hts Hw.
      apply with_ns_parsed in Hw as [ns' [Ht Hk]].
      eapply IH; [exact Hl | exact Hr | | exact Hk].
      cbn. eapply take_actions_keep; eassumption. }
    destruct c as [| | |opt act explicit]; cbn [Argparse.consume] in H.
    + eapply IH; [| exact Hrest | | exact H]; [lia|].
      unfold Argparse.take_positional.
      destruct (Argparse.st_seen_positional st); cbn; [exact Hst|].
      now apply positional_ok.
    + eapply IH; [| exact Hrest | exact Hst | exact H]. lia.
    + eapply IH; [| exact Hrest | | exact H]; [lia | exact Hst].
    + assert (Hchain :
        forall passed last,
          match explicit with
          | Some e => Argparse.joined p opt act e []
          | None => inr ([], (opt, act, None))
          end = inr (passed, last) ->
          Forall (tuple_keeps P) passed /\ tuple_keeps P last).
      { intros passed last E. destruct explicit as [e|].
        - eapply joined_keeps; [exact Hc | constructor | exact E].
        - inversion E; subst. split; [constructor | exact Hc]. }
      destruct (match explicit with
                | Some e => Argparse.joined p opt act e []
                | None => inr ([], (opt, act, None))
                end) as [err|[passed [[opt' act'] value]]];
        [discriminate|].
      destruct (Hchain _ _ eq_refl) as [Hpassed Hlast].
      assert (Hall : forall v,
                 Forall (tuple_keeps P) (passed ++ [(opt', act', v)])%list).
      { intros v. apply Forall_app. split; [exact Hpassed|].
        constructor; [exact Hlast | constructor]. }
      destruct value as [v|].
      * eapply Step; [| exact Hrest | apply Hall | exact H]. lia.
      * destruct (Argparse.takes_argument act').
        -- destruct rest as [|[v1 c1] rest1]; [discriminate|].
           destruct c1 as [| | |o1 a1 e1]; try discriminate.
           ++ inversion Hrest; subst.
              eapply Step; [| eassumption | apply Hall | exact H].
              cbn in Hlen. lia.
           ++ destruct rest1 as [|[v2 c2] rest2]; [discriminate|].
              destruct c2; try discriminate.
              inversion Hrest as [|? ? ? Hrest1]; subst.
              inversion Hrest1; subst.
              eapply Step; [| eassumption | apply Hall | exact H].
              cbn in Hlen. lia.
        -- eapply Step; [| exact Hrest | apply Hall | exact H]. lia.
Qed.

(** Whatever [parse_args] returns satisfies every property that the
    defaults satisfy and that each declared argument keeps. *)
Lemma parse_args_keeps (args : list string) (ns : N) :
  Argparse.parse_args p args = Argparse.Parsed ns -> P ns.
Proof.
  unfold Argparse.parse_args.
  destruct (Argparse.classify p args) as [e|items] eqn:Ec; [discriminate|].
  destruct (Argparse.consume p items _) as [st| |] eqn:E; try discriminate.
  destruct (Argparse.st_extras st); [|discriminate].
  intros H; inversion H; subst.
  eapply consume_keeps; [apply Nat.le_refl | | | exact E].
  - eapply classify_keeps; eassumption.
  - exact defaults_ok.
Qed.

End ParserInvariant.

(** On the argument path the timing comes from [-T], whose choices are
    0..5, or is the default 4. *)
Lemma parse_args_timing_in_range (argv : list string) (args : Args) :
  parse_args argv = Argparse.Parsed args -> (0 <= timing args <= 5)%Z.
Proof.
  apply (@parse_args_keeps Args parser (fun ns => (0 <= timing ns <= 5)%Z)).
  - cbn. lia.
  - intros v ns H. exact H.
  - intros strs a Hin. cbn in Hin.
    repeat (destruct Hin as [E|Hin];
            [inversion E; subst; cbn;
             first [exact I | intros; assumption | idtac]|]);
      try contradiction.
    intros n ns Hn _.
    repeat (destruct Hn as [<-|Hn]; [lia|]). contradiction.
Qed.

(** A usage error ends the run with status 2 before anything is launched. *)
Lemma usage_error_stops_main (host : Host) (argv : list string) (w : World)
      (e : Argparse.usage_error) :
  parse_args argv = Argparse.Usage e ->
  main host argv w =
  (Exit 2%Z,
   mkWorld (stdin w) (stdout w) (stderr w ++ [UsageMessage e])%list
           (launched w)).
Proof.
  intros H. unfold main, configure, bind, run_parse_args. rewrite H.
  reflexivity.
Qed.

Lemma timing_out_of_range_rejected :
  parse_args ["example.com"; "-T"; "9"]
  = Argparse.Usage (Argparse.invalid_choice "-T" 9%Z) /\
  parse_args ["example.com"; "-T9"]
  = Argparse.Usage (Argparse.invalid_choice "-T" 9%Z) /\
  parse_args ["example.com"; "--timing=-1"]
  = Argparse.Usage (Argparse.invalid_choice "--timing" (-1)%Z).
Proof. repeat split. Qed.

(** What [configure] returns comes from the arguments or from the
    prompts. *)
Lemma configure_inv (argv : list string) (w w' : World) (cfg : Config) :
  configure argv w = (Ret cfg, w') ->
  (exists (args : Args) (t : string),
      parse_args argv = Argparse.Parsed args /\
      interactive args = false /\ target args = Some t /\ t <> "" /\
      cfg = set_target (strip_url t) args /\ w' = w) \/
  (exists (args : Args),
      parse_args argv = Argparse.Parsed args /\
      (interactive args = true \/ target args = None \/ target args = Some "") /\
      interactive_mode argv w = (Ret cfg, w')).
Proof.
  unfold configure, bind, run_parse_args.
  destruct (parse_args argv) as [args|e|] eqn:Hparse;
    [|discriminate|discriminate].
  unfold ret.
  destruct (target args) as [t|] eqn:Ht.
  - destruct (interactive args) eqn:Hi; cbn [orb].
    + intros H. right. exists args. auto.
    + destruct t as [|c t]; cbn [PyStr.nonempty negb].
      * intros H. right. exists args. auto.
      * intros H. inversion H; subst. left.
        exists args, (String c t). repeat split; try assumption.
        discriminate.
  - intros H. right. exists args. auto.
Qed.


(** ** The finalized target *)

Lemma startswith_false (t p : string) :
  PyStr.startswith t p = false -> PyStr.strip_prefix p t = None.
Proof.
  unfold PyStr.startswith. now destruct (PyStr.strip_prefix p t).
Qed.

(** A host that is itself free of prefixes comes out of the normalizer
    whole, whichever of the prefixes stood before it. *)
Lemma strip_url_contract_clean (scheme www host : string) :
  In scheme [""; "http://"; "https://"] ->
  In www [""; "www."] ->
  clean_target host = true ->
  strip_url_contract (scheme ++ www ++ host) = host.
Proof.
  intros Hs Hw Hclean. unfold clean_target in Hclean.
  apply andb_true_iff in Hclean as [Hclean H3].
  apply andb_true_iff in Hclean as [Hclean H2].
  apply andb_true_iff in Hclean as [_ H1].
  apply negb_true_iff, startswith_false in H1, H2, H3.
  assert (Hwww : drop_prefix "www." (www ++ host) = host).
  { unfold drop_prefix. destruct Hw as [<-|[<-|[]]].
    - cbn [String.append]. now rewrite H3.
    - now rewrite strip_prefix_complete. }
  unfold strip_url_contract, drop_scheme.
  destruct Hs as [<-|[<-|[<-|[]]]].
  - cbn [String.append].
    assert (E1 : PyStr.strip_prefix "https://" (www ++ host) = None).
    { destruct Hw as [<-|[<-|[]]]; [exact H2 | reflexivity]. }
    assert (E2 : PyStr.strip_prefix "http://" (www ++ host) = None).
    { destruct Hw as [<-|[<-|[]]]; [exact H1 | reflexivity]. }
    rewrite E1. unfold drop_prefix at 2. rewrite E2. exact Hwww.
  - change (PyStr.strip_prefix "https://" ("http://" ++ www ++ host))
      with (@None string).
    unfold drop_prefix at 2. rewrite strip_prefix_complete. exact Hwww.
  - rewrite strip_prefix_complete. exact Hwww.
Qed.

(** The data model's invariant on the target does not hold of the code:
    the lone scheme [http://] is accepted as a target and normalizes to the
    empty string. *)
Lemma target_invariant_fails :
  ~ (forall (argv : list string) (w w' : World) (cfg : Config),
        configure argv w = (Ret cfg, w') ->
        clean_target (target cfg) = true).
Proof.
  intros H.
  specialize (H ["http://"] (initial []) (initial [])
                (set_target "" (Argparse.defaults parser)) eq_refl).
  discriminate H.
Qed.

(** C5 (amended). In every finalized configuration, whichever argument
    source produced it, the target is what the normalizer makes of the raw
    target, which is the non-empty positional argument or the first
    interactive answer without its surrounding white space: the raw target
    less one leading scheme and then one leading [www.], where present. When
    the raw target is such a prefix followed by a host that is non-empty and
    begins with neither a scheme nor [www.], the target is that host. *)
Theorem finalized_target_is_normalized (argv : list string) (w w' : World)
        (cfg : Config) :
  configure argv w = (Ret cfg, w') ->
  exists raw : string,
    ((exists args : Args,
         parse_args argv = Argparse.Parsed args /\
         interactive args = false /\ target args = Some raw /\ raw <> "") \/
     (exists (line : string) (rest : list string),
         stdin w = line :: rest /\ raw = PyStr.strip line)) /\
    target cfg = strip_url_contract raw /\
    (forall scheme www host : string,
        In scheme [""; "http://"; "https://"] ->
        In www [""; "www."] ->
        clean_target host = true ->
        raw = scheme ++ www ++ host ->
        target cfg = host /\ clean_target (target cfg) = true).
Proof.
  intros H.
  assert (Hraw : exists raw : string,
    ((exists args : Args,
         parse_args argv = Argparse.Parsed args /\
         interactive args = false /\ target args = Some raw /\ raw <> "") \/
     (exists (line : string) (rest : list string),
         stdin w = line :: rest /\ raw = PyStr.strip line)) /\
    target cfg = strip_url_contract raw).
  { apply configure_inv in H
      as [[args [t [Hp [Hi [Ht [Hne [-> _]]]]]]] | [args [_ [_ Hrun]]]].
    - exists t. split; [left; exists args; auto|].
      cbn. apply strip_url_spec.
    - apply interactive_mode_inv in Hrun
        as [a [level [rest [Hin [_ [-> _]]]]]].
      exists (PyStr.strip (ans_target a)). split.
      + right. exists (ans_target a). eexists. split; [exact Hin | reflexivity].
      + cbn. apply strip_url_spec. }
  destruct Hraw as [raw [Horigin Htarget]].
  exists raw. repeat split; try assumption.
  - subst raw. rewrite Htarget. now apply strip_url_contract_clean.
  - subst raw. rewrite Htarget.
    now rewrite strip_url_contract_clean.
Qed.

Lemma finalized_target_is_normalized_witness :
  exists raw : string,
    raw = "https://www.example.com" /\
    target example_config = strip_url_contract raw /\
    clean_target (target example_config) = true.
Proof.
  destruct (@finalized_target_is_normalized ["https://www.example.com"]
              (initial []) (initial []) example_config eq_refl)
    as [raw [Horigin [Htarget Hclean]]].
  exists raw.
  assert (E : raw = "https://www.example.com").
  { destruct Horigin as [[args [Hp [_ [Ht _]]]] | [line [rest [Hin _]]]].
    - inversion Hp; subst args. now inversion Ht.
    - discriminate Hin. }
  split; [exact E|]. split; [exact Htarget|].
  apply (Hclean "https://" "www." "example.com").
  - right. right. left. reflexivity.
  - right. left. reflexivity.
  - reflexivity.
  - exact E.
Defined.

(** * Further properties *)

(** ** The target normalizer, beyond its contract *)

(** [strip_url] only ever removes text from the front: the input is one of
    six prefixes (none, a scheme, [www.], or a scheme and [www.]) followed
    by the result. *)
Theorem strip_url_removes_a_known_prefix (s : string) :
  exists p : string,
    In p [""; "http://"; "https://"; "www."; "http://www."; "https://www."] /\
    s = p ++ strip_url s.
Proof.
  rewrite strip_url_spec. unfold strip_url_contract, drop_scheme, drop_prefix.
  destruct (PyStr.strip_prefix "https://" s) as [r|] eqn:E1.
  - apply strip_prefix_sound in E1.
    destruct (PyStr.strip_prefix "www." r) as [r'|] eqn:E2.
    + apply strip_prefix_sound in E2. exists "https://www.". subst.
      split; [cbn; tauto | reflexivity].
    + exists "https://". split; [cbn; tauto | exact E1].
  - destruct (PyStr.strip_prefix "http://" s) as [r|] eqn:E3.
    + apply strip_prefix_sound in E3.
      destruct (PyStr.strip_prefix "www." r) as [r'|] eqn:E2.
      * apply strip_prefix_sound in E2. exists "http://www.". subst.
        split; [cbn; tauto | reflexivity].
      * exists "http://". split; [cbn; tauto | exact E3].
    + destruct (PyStr.strip_prefix "www." s) as [r'|] eqn:E2.
      * apply strip_prefix_sound in E2. exists "www.".
        split; [cbn; tauto | exact E2].
      * exists "". split; [cbn; tauto | reflexivity].
Qed.

(** A target that does not begin with [h] or [w] (an address, say) is
    returned as it is. *)
Theorem strip_url_keeps_other_targets (c : ascii) (r : string) :
  c <> "h"%char -> c <> "w"%char ->
  strip_url (String c r) = String c r.
Proof.
  intros Hh Hw. rewrite strip_url_spec.
  unfold strip_url_contract, drop_scheme, drop_prefix. cbn [PyStr.strip_prefix].
  destruct (Ascii.eqb_spec "h"%char c) as [E|_]; [congruence|].
  destruct (Ascii.eqb_spec "w"%char c) as [E|_]; [congruence|].
  reflexivity.
Qed.

Lemma strip_url_keeps_other_targets_witness :
  strip_url "192.168.0.1" = "192.168.0.1".
Proof.
  apply (@strip_url_keeps_other_targets "1" "92.168.0.1"); discriminate.
Defined.

(** Only one level of prefix is removed: what follows [www.], or a scheme
    and [www.], comes back untouched even when it begins with a scheme or
    [www.] again, and after a bare scheme at most one [www.] goes. *)
Theorem strip_url_one_level (s : string) :
  strip_url ("www." ++ s) = s /\
  strip_url ("http://www." ++ s) = s /\
  strip_url ("https://www." ++ s) = s /\
  strip_url ("http://" ++ s) = drop_prefix "www." s /\
  strip_url ("https://" ++ s) = drop_prefix "www." s.
Proof.
  rewrite !strip_url_spec.
  unfold strip_url_contract, drop_scheme, drop_prefix.
  repeat (split; [reflexivity|]). reflexivity.
Qed.

(** ** What a run launches *)

Lemma bind_launches_nothing (A B : Type) (m : Py A) (f : A -> Py B) :
  launches_nothing m -> (forall a, launches_nothing (f a)) ->
  launches_nothing (bind m f).
Proof.
  intros Hm Hf w. unfold bind. specialize (Hm w).
  destruct (m w) as [[a|c|e] w1]; cbn in Hm |- *; try exact Hm.
  now rewrite Hf.
Qed.

Lemma input_launches_nothing (prompt : string) :
  launches_nothing (input prompt).
Proof. intros w. unfold input. now destruct (stdin w). Qed.

Lemma print_launches_nothing (s : string) : launches_nothing (print s).
Proof. intros w. reflexivity. Qed.

Lemma ret_launches_nothing (A : Type) (a : A) : launches_nothing (ret a).
Proof. intros w. reflexivity. Qed.

Lemma int_launches_nothing (s : string) : launches_nothing (int s).
Proof. intros w. unfold int. now destruct (PyStr.to_int s). Qed.

Lemma run_parse_args_launches_nothing (argv : list string) :
  launches_nothing (run_parse_args argv).
Proof. intros w. unfold run_parse_args. now destruct (parse_args argv). Qed.

Lemma interactive_mode_launches_nothing (argv : list string) :
  launches_nothing (interactive_mode argv).
Proof.
  unfold interactive_mode.
  repeat first
    [ apply bind_launches_nothing; [|intros ?]
    | apply input_launches_nothing
    | apply print_launches_nothing
    | apply ret_launches_nothing
    | apply run_parse_args_launches_nothing
    | match goal with
      | |- launches_nothing (if ?b then _ else _) => destruct b
      end
    | apply int_launches_nothing ].
Qed.

Lemma configure_launches_nothing (argv : list string) :
  launches_nothing (configure argv).
Proof.
  unfold configure.
  apply bind_launches_nothing; [apply run_parse_args_launches_nothing|].
  intros args. destruct (target args) as [t|].
  - destruct (interactive args || negb (PyStr.nonempty t)).
    + apply interactive_mode_launches_nothing.
    + apply ret_launches_nothing.
  - apply interactive_mode_launches_nothing.
Qed.

(** [main] starts at most one command, and only once the configuration is
    complete: nothing is launched while the arguments are parsed and the
    prompts are answered, however that ends, and what is launched afterwards
    is the command built from the finished configuration. *)
Theorem main_launches_at_most_one_command (host : Host) (argv : list string)
        (w : World) :
  launched (snd (configure argv w)) = launched w /\
  (launched (snd (main host argv w)) = launched w \/
   exists (cfg : Config) (w1 : World),
     configure argv w = (Ret cfg, w1) /\
     launched (snd (main host argv w))
     = (launched w ++ [build_command cfg])%list).
Proof.
  pose proof (configure_launches_nothing argv w) as Hc.
  split; [exact Hc|].
  unfold main, bind.
  destruct (configure argv w) as [[cfg|c|e] w1] eqn:E; cbn in Hc;
    [|left; exact Hc|left; exact Hc].
  unfold execute, bind, try_except_CalledProcessError, subprocess_run, print,
    eprint, write_stdout, write_stderr, sys_exit.
  cbn [stdin stdout stderr launched].
  destruct (spawn host (build_command cfg)) as [rc|].
  - right. exists cfg, w1. split; [reflexivity|].
    destruct (rc =? 0)%Z; cbn; now rewrite Hc.
  - left. exact Hc.
Qed.

(** ** Runs that end early *)

(** A command that cannot be started is nobody's [CalledProcessError]: the
    exception leaves [main] uncaught, after the [Running:] line and with
    neither [Scan complete.] nor an [Error:] line written. *)
Theorem launch_failure_is_not_caught (host : Host) (argv : list string)
        (w w1 : World) (cfg : Config) :
  configure argv w = (Ret cfg, w1) ->
  spawn host (build_command cfg) = None ->
  main host argv w =
  (Raise (OSError (build_command cfg)),
   mkWorld (stdin w1)
           (stdout w1 ++ [running_line (build_command cfg)])%list
           (stderr w1) (launched w1)).
Proof.
  intros Hcfg Hspawn. unfold main, bind. rewrite Hcfg.
  unfold execute, bind, try_except_CalledProcessError, subprocess_run, print,
    write_stdout.
  cbn [stdin stdout stderr launched]. rewrite Hspawn. reflexivity.
Qed.

Lemma launch_failure_is_not_caught_witness :
  main host_without_sudo ["example.com"] (initial []) =
  (Raise (OSError ["sudo"; "nmap"; "-T4"; "example.com"]),
   mkWorld [] [Text ("Running: sudo nmap -T4 example.com" ++ newline)] [] []).
Proof.
  apply (@launch_failure_is_not_caught host_without_sudo ["example.com"]
           (initial []) (initial []) example_config); reflexivity.
Defined.

(** When the arguments do not parse, or ask for the help text, [main]
    stops there: exit status 2 with the usage message on standard error, or
    exit status 0 with the help on standard output; no prompt is written, no
    input read, no command launched. *)
Theorem parse_failure_stops_main (host : Host) (argv : list string)
        (w : World) :
  (forall e : Argparse.usage_error,
      parse_args argv = Argparse.Usage e ->
      main host argv w =
      (Exit 2%Z,
       mkWorld (stdin w) (stdout w) (stderr w ++ [UsageMessage e])%list
               (launched w))) /\
  (parse_args argv = Argparse.HelpShown ->
   main host argv w =
   (Exit 0%Z,
    mkWorld (stdin w) (stdout w ++ [HelpMessage])%list (stderr w)
            (launched w))).
Proof.
  split.
  - intros e H. unfold main, configure, bind, run_parse_args. rewrite H.
    reflexivity.
  - intros H. unfold main, configure, bind, run_parse_args. rewrite H.
    reflexivity.
Qed.

Lemma parse_failure_stops_main_witness :
  main (host_status 0) ["example.com"; "--script"; "vuln"] (initial ["x"]) =
  (Exit 2%Z,
   mkWorld ["x"] []
     [UsageMessage
        (Argparse.ambiguous_option "--script"
           ["--script-default"; "--script-cats"; "--script-file"])] []) /\
  main (host_status 0) ["example.com"; "-h"] (initial ["x"]) =
  (Exit 0%Z, mkWorld ["x"] [HelpMessage] [] []).
Proof.
  destruct (@parse_failure_stops_main (host_status 0)
              ["example.com"; "--script"; "vuln"] (initial ["x"])) as [Hu _].
  destruct (@parse_failure_stops_main (host_status 0)
              ["example.com"; "-h"] (initial ["x"])) as [_ Hh].
  split; [apply Hu | apply Hh]; reflexivity.
Defined.

(** ** The argument path *)

(** With a non-empty target and no [-i], the configuration is the parsed
    namespace with its target normalized and nothing else touched; no prompt
    is written and standard input is not read, by the configuration step or
    by the rest of [main]. *)
Theorem argument_path_reads_no_input (host : Host) (argv : list string)
        (args : Args) (t : string) (w : World) :
  parse_args argv = Argparse.Parsed args ->
  interactive args = false ->
  target args = Some t ->
  t <> "" ->
  configure argv w = (Ret (set_target (strip_url t) args), w) /\
  stdin (snd (main host argv w)) = stdin w.
Proof.
  intros Hparse Hi Ht Hne.
  assert (E : configure argv w = (Ret (set_target (strip_url t) args), w)).
  { unfold configure, bind, run_parse_args. rewrite Hparse. unfold ret.
    rewrite Ht, Hi. destruct t; [congruence | reflexivity]. }
  split; [exact E|].
  unfold main, bind. rewrite E.
  unfold execute, bind, try_except_CalledProcessError, subprocess_run, print,
    eprint, write_stdout, write_stderr, sys_exit.
  cbn [stdin stdout stderr launched].
  destruct (spawn host _) as [rc|]; [|reflexivity].
  destruct (rc =? 0)%Z; reflexivity.
Qed.

Lemma argument_path_reads_no_input_witness :
  configure ["https://example.com"; "-sS"; "-T5"; "-oN"; "results.txt"]
            (initial ["unread"])
  = (Ret (mkNamespace "example.com" false true false false false false None
                      None false false None 5%Z None (Some "results.txt")
                      None None None),
     initial ["unread"]) /\
  stdin (snd (main (host_status 0)
                   ["https://example.com"; "-sS"; "-T5"; "-oN"; "results.txt"]
                   (initial ["unread"])))
  = ["unread"].
Proof.
  apply (@argument_path_reads_no_input (host_status 0)
           ["https://example.com"; "-sS"; "-T5"; "-oN"; "results.txt"]
           (mkNamespace (Some "https://example.com") false true false false
                        false false None None false false None 5%Z None
                        (Some "results.txt") None None None)
           "https://example.com" (initial ["unread"]));
    [reflexivity | reflexivity | reflexivity | discriminate].
Defined.

(** A lone target that is not empty and does not begin with a dash is
    scanned with the defaults: the command is [sudo nmap -T4] and the
    normalized target, whatever the target is. *)
Theorem lone_target_default_scan (t : string) (w : World) :
  t <> "" ->
  PyStr.startswith t "-" = false ->
  exists cfg : Config,
    configure [t] w = (Ret cfg, w) /\
    build_command cfg = ["sudo"; "nmap"; "-T4"; strip_url t].
Proof.
  intros Hne Hdash.
  destruct t as [|c r]; [congruence|].
  unfold PyStr.startswith in Hdash. cbn [PyStr.strip_prefix] in Hdash.
  destruct (Ascii.eqb "-" c) eqn:Ec; [discriminate|].
  assert (Ec' : Ascii.eqb c "-" = false) by now rewrite Ascii.eqb_sym.
  assert (Hparse : parse_args [String c r]
                   = Argparse.Parsed (set_target (Some (String c r))
                                                 (Argparse.defaults parser))).
  { unfold parse_args, Argparse.parse_args. cbn [Argparse.classify].
    assert (E2 : String.eqb (String c r) "--" = false).
    { cbn. now rewrite Ec'. }
    rewrite E2. cbn [Argparse.parse_optional]. rewrite Ec'. reflexivity. }
  eexists. split.
  - unfold configure, bind, run_parse_args. rewrite Hparse. reflexivity.
  - reflexivity.
Qed.

Lemma lone_target_default_scan_witness :
  exists cfg : Config,
    configure ["http://www.example.com"] (initial []) = (Ret cfg, initial []) /\
    build_command cfg = ["sudo"; "nmap"; "-T4"; "example.com"].
Proof.
  apply (@lone_target_default_scan "http://www.example.com" (initial []));
    [discriminate | reflexivity].
Defined.

(** ** The prompts and the command line *)

Lemma configure_goes_interactive (argv : list string) (args : Args)
      (w : World) :
  parse_args argv = Argparse.Parsed args ->
  goes_interactive args ->
  configure argv w = interactive_mode argv w.
Proof.
  intros Hparse Hcase.
  unfold configure, bind, run_parse_args. rewrite Hparse. unfold ret.
  destruct Hcase as [Hi | [Ht | Ht]].
  - rewrite Hi. now destruct (target args).
  - now rewrite Ht.
  - rewrite Ht. cbn. now rewrite orb_true_r.
Qed.

(** Once [main] turns to the prompts, nothing given on the command line
    counts: two command lines that both lead to the prompts are configured
    alike, answer for answer, options such as [-sS] or [-T] included. *)
Theorem prompts_discard_the_command_line (argv1 argv2 : list string)
        (args1 args2 : Args) (w : World) :
  parse_args argv1 = Argparse.Parsed args1 ->
  parse_args argv2 = Argparse.Parsed args2 ->
  goes_interactive args1 ->
  goes_interactive args2 ->
  configure argv1 w = configure argv2 w.
Proof.
  intros H1 H2 G1 G2.
  rewrite (@configure_goes_interactive argv1 args1 w H1 G1).
  rewrite (@configure_goes_interactive argv2 args2 w H2 G2).
  unfold interactive_mode, run_parse_args. rewrite H1, H2. reflexivity.
Qed.

Lemma prompts_discard_the_command_line_witness :
  configure ["-i"; "other.org"; "-sU"; "-T"; "1"; "-oX"; "scan.xml"]
            (initial (answer_lines answers_1_4))
  = configure [] (initial (answer_lines answers_1_4)).
Proof.
  eapply (@prompts_discard_the_command_line
            ["-i"; "other.org"; "-sU"; "-T"; "1"; "-oX"; "scan.xml"] []).
  - reflexivity.
  - reflexivity.
  - left. reflexivity.
  - right. left. reflexivity.
Defined.

(** ** More on the prompts *)

Lemma lower_char_is_y (c : ascii) :
  Ascii.eqb "y" (PyStr.lower_char c) = Ascii.eqb c "y" || Ascii.eqb c "Y".
Proof.
  destruct c as [[] [] [] [] [] [] [] []]; reflexivity.
Qed.

(** The skip-ping question is answered yes by any line that begins with
    [y] or [Y], and by no other: whatever follows the first letter is not
    looked at, and the empty line means no. *)
Theorem interactive_skip_ping_answer (argv : list string) (args : Args)
        (a : Answers) (level : Z) (w : World) (rest : list string) :
  parse_args argv = Argparse.Parsed args ->
  stdin w = (answer_lines a ++ rest)%list ->
  timing_level (ans_timing a) = Some level ->
  exists (cfg : Config) (w' : World),
    interactive_mode argv w = (Ret cfg, w') /\
    (skip_ping cfg = true <->
     exists tail : string,
       ans_skip_ping a = String "y" tail \/ ans_skip_ping a = String "Y" tail).
Proof.
  intros Hparse Hin Hlevel.
  eexists _, _. split; [eapply interactive_mode_run; eassumption|].
  cbn [interactive_config skip_ping].
  unfold PyStr.startswith.
  destruct (ans_skip_ping a) as [|c tail].
  - cbn. split; [discriminate|]. intros [t [H|H]]; discriminate.
  - cbn [PyStr.lower PyStr.strip_prefix]. rewrite lower_char_is_y.
    split.
    + intros H. exists tail.
      destruct (Ascii.eqb_spec c "y") as [->|_]; [now left|].
      destruct (Ascii.eqb_spec c "Y") as [->|_]; [now right|].
      discriminate.
    + intros [t [H|H]]; inversion H; subst; reflexivity.
Qed.

Lemma interactive_skip_ping_answer_witness :
  exists (cfg : Config) (w' : World),
    interactive_mode [] (initial (answer_lines answers_yes)) = (Ret cfg, w') /\
    skip_ping cfg = true.
Proof.
  destruct (@interactive_skip_ping_answer [] (Argparse.defaults parser)
              answers_yes 4%Z (initial (answer_lines answers_yes)) [])
    as [cfg [w' [Hrun Hiff]]]; [reflexivity | reflexivity | reflexivity |].
  exists cfg, w'. split; [exact Hrun|].
  apply Hiff. exists "es". right. reflexivity.
Defined.





Lemma rstrip_idempotent (s : string) :
  PyStr.rstrip (PyStr.rstrip s) = PyStr.rstrip s.
Proof.
  induction s as [|c s IH]; [reflexivity|].
  cbn [PyStr.rstrip].
  destruct (PyStr.rstrip s) as [|c1 r1] eqn:E.
  - destruct (PyStr.isspace c) eqn:Ec; [reflexivity|].
    cbn [PyStr.rstrip]. now rewrite Ec.
  - cbn [PyStr.rstrip] in IH |- *. now rewrite IH.
Qed.

Lemma rstrip_keeps_head (c : ascii) (r : string) :
  PyStr.isspace c = false ->
  exists r' : string, PyStr.rstrip (String c r) = String c r'.
Proof.
  intros Hc. cbn [PyStr.rstrip].
  destruct (PyStr.rstrip r) as [|c1 r1].
  - rewrite Hc. now exists "".
  - now exists (String c1 r1).
Qed.

Lemma lstrip_head (s : string) :
  PyStr.lstrip s = "" \/
  exists (c : ascii) (r : string),
    PyStr.lstrip s = String c r /\ PyStr.isspace c = false.
Proof.
  induction s as [|c s IH]; [now left|].
  cbn [PyStr.lstrip]. destruct (PyStr.isspace c) eqn:Ec; [exact IH|].
  right. now exists c, s.
Qed.

(** Stripping a stripped string changes nothing. *)
Lemma strip_idempotent (s : string) :
  PyStr.strip (PyStr.strip s) = PyStr.strip s.
Proof.
  unfold PyStr.strip.
  destruct (lstrip_head s) as [E | [c [r [E Hc]]]]; rewrite E.
  - reflexivity.
  - destruct (@rstrip_keeps_head c r Hc) as [r' E'].
    rewrite E'. cbn [PyStr.lstrip]. rewrite Hc.
    rewrite <- E'. apply rstrip_idempotent.
Qed.

Lemma or_None_stripped (x v : string) :
  or_None (PyStr.strip x) = Some v -> v <> "" /\ PyStr.strip v = v.
Proof.
  unfold or_None. destruct (PyStr.strip x) as [|c r] eqn:E; [discriminate|].
  cbn. intros H; inversion H; subst v. split; [discriminate|].
  rewrite <- E. apply strip_idempotent.
Qed.

Lemma or_default_stripped (x d : string) :
  d <> "" -> PyStr.strip d = d ->
  or_default (PyStr.strip x) d <> "" /\
  PyStr.strip (or_default (PyStr.strip x) d) = or_default (PyStr.strip x) d.
Proof.
  intros Hd Hs. unfold or_default.
  destruct (PyStr.strip x) as [|c r] eqn:E; cbn [PyStr.nonempty].
  - now split.
  - split; [discriminate|]. rewrite <- E. apply strip_idempotent.
Qed.

(** No text the prompts store for the script categories, the script file,
    the decoys, the ports or the output file is empty or carries white space
    at either end: an answer is stripped before it is stored, and an answer
    that strips to nothing is replaced by [None] or by the default. *)
Theorem interactive_stores_stripped_values (argv : list string) (args : Args)
        (a : Answers) (level : Z) (w : World) (rest : list string) :
  parse_args argv = Argparse.Parsed args ->
  stdin w = (answer_lines a ++ rest)%list ->
  timing_level (ans_timing a) = Some level ->
  exists (cfg : Config) (w' : World),
    interactive_mode argv w = (Ret cfg, w') /\
    forall v : string,
      In (Some v) [script_cats cfg; script_file cfg; decoy cfg; ports cfg;
                   output_normal cfg] ->
      v <> "" /\ PyStr.strip v = v.
Proof.
  intros Hparse Hin Hlevel.
  eexists _, _. split; [eapply interactive_mode_run; eassumption|].
  cbn [interactive_config script_cats script_file decoy ports output_normal].
  intros v Hv. cbn [In] in Hv.
  destruct Hv as [H|[H|[H|[H|[H|[]]]]]].
  - now apply or_None_stripped in H.
  - now apply or_None_stripped in H.
  - now apply or_None_stripped in H.
  - inversion H; subst v. apply or_default_stripped; [discriminate|reflexivity].
  - inversion H; subst v. apply or_default_stripped; [discriminate|reflexivity].
Qed.

Lemma interactive_stores_stripped_values_witness :
  exists (cfg : Config) (w' : World),
    interactive_mode [] (initial (answer_lines answers_padded)) = (Ret cfg, w') /\
    script_cats cfg = Some "vuln" /\ script_file cfg = None /\
    ports cfg = Some "1-65535" /\ output_normal cfg = Some "out.txt".
Proof.
  destruct (@interactive_stores_stripped_values [] (Argparse.defaults parser)
              answers_padded 4%Z (initial (answer_lines answers_padded)) [])
    as [cfg [w' [Hrun _]]]; [reflexivity | reflexivity | reflexivity |].
  exists cfg, w'. split; [exact Hrun|].
  cbv in Hrun. inversion Hrun. repeat split.
Defined.

Lemma selector_set (name v : string) :
  v <> "" -> selector name (Some v) = [name; v].
Proof. destruct v; [congruence | reflexivity]. Qed.

Lemma build_command_tail (cfg : Config) (p o : string) :
  ports cfg = Some p -> p <> "" ->
  output_normal cfg = Some o -> o <> "" ->
  output_xml cfg = None -> output_grep cfg = None -> output_json cfg = None ->
  build_command cfg =
  (before_timing cfg
   ++ [("-T" ++ PyStr.of_int (timing cfg))%string; "-p"; p; target cfg;
       "-oN"; o])%list.
Proof.
  intros Hp Hp0 Ho Ho0 Hx Hg Hj.
  rewrite build_command_contract. unfold command_contract, before_timing.
  rewrite Hp, Ho, Hx, Hg, Hj.
  rewrite (selector_set "-p" Hp0), (selector_set "-oN" Ho0).
  cbn [selector]. rewrite <- !app_assoc. reflexivity.
Qed.

(** A command that comes out of the prompts always names a port range and
    a normal output file and never an XML, grepable or JSON one: it ends
    with the timing token, [-p] and the ports, the target, [-oN] and the
    file. *)
Theorem interactive_command_tail (argv : list string) (args : Args)
        (a : Answers) (level : Z) (w : World) (rest : list string) :
  parse_args argv = Argparse.Parsed args ->
  stdin w = (answer_lines a ++ rest)%list ->
  timing_level (ans_timing a) = Some level ->
  exists (cfg : Config) (w' : World) (p o : string),
    interactive_mode argv w = (Ret cfg, w') /\
    p <> "" /\ o <> "" /\
    build_command cfg =
    (before_timing cfg
     ++ [("-T" ++ PyStr.of_int level)%string; "-p"; p; target cfg;
         "-oN"; o])%list.
Proof.
  intros Hparse Hin Hlevel.
  destruct (@or_default_stripped (ans_ports a) "1-1000") as [Hp _];
    [discriminate | reflexivity |].
  destruct (@or_default_stripped (ans_output a) "scan.txt") as [Ho _];
    [discriminate | reflexivity |].
  eexists _, _, _, _.
  split; [eapply interactive_mode_run; eassumption|].
  split; [exact Hp|]. split; [exact Ho|].
  now apply build_command_tail.
Qed.

Lemma interactive_command_tail_witness :
  exists (cfg : Config) (w' : World),
    interactive_mode [] (initial (answer_lines answers_1_4)) = (Ret cfg, w') /\
    build_command cfg =
    ["sudo"; "nmap"; "-sS"; "-sV"; "-T4"; "-p"; "1-1000"; "example.com";
     "-oN"; "scan.txt"].
Proof.
  destruct (@interactive_command_tail [] (Argparse.defaults parser)
              answers_1_4 4%Z (initial (answer_lines answers_1_4)) [])
    as [cfg [w' [p [o [Hrun [_ [_ Hcmd]]]]]]];
    [reflexivity | reflexivity | reflexivity |].
  exists cfg, w'. split; [exact Hrun|].
  cbv in Hrun. inversion Hrun. reflexivity.
Defined.


(** ** Tokens and exit statuses *)

Lemma flag_tokens_nonempty (b : bool) (token : string) :
  token <> "" -> Forall (fun t => t <> "") (flag b token).
Proof. intros H. destruct b; cbn; repeat constructor. exact H. Qed.

Lemma selector_tokens_nonempty (name : string) (value : option string) :
  name <> "" -> Forall (fun t => t <> "") (selector name value).
Proof.
  intros H. destruct value as [[|c v]|]; cbn; repeat constructor.
  - exact H.
  - discriminate.
Qed.

(** No option is ever handed an empty token: the command is the target
    with non-empty tokens before it and after it, so the only token that can
    be the empty string is the target itself. *)
Theorem build_command_only_target_can_be_empty (cfg : Config) :
  exists before after : list string,
    build_command cfg = (before ++ [target cfg] ++ after)%list /\
    Forall (fun t => t <> "") before /\
    Forall (fun t => t <> "") after.
Proof.
  exists (before_timing cfg
          ++ [("-T" ++ PyStr.of_int (timing cfg))%string]
          ++ selector "-p" (ports cfg))%list,
         (selector "-oN" (output_normal cfg)
          ++ selector "-oX" (output_xml cfg)
          ++ selector "-oG" (output_grep cfg)
          ++ selector "-oJ" (output_json cfg))%list.
  split.
  - rewrite build_command_contract. unfold command_contract, before_timing.
    rewrite <- !app_assoc. reflexivity.
  - unfold before_timing. split.
    + repeat (apply Forall_app; split);
        try (apply flag_tokens_nonempty; discriminate);
        try (apply selector_tokens_nonempty; discriminate);
        repeat constructor; discriminate.
    + repeat (apply Forall_app; split);
        apply selector_tokens_nonempty; discriminate.
Qed.

Lemma interactive_mode_never_exits (argv : list string) (args : Args)
      (w w' : World) (c : Z) :
  parse_args argv = Argparse.Parsed args ->
  interactive_mode argv w <> (Exit c, w').
Proof.
  intros Hparse H.
  destruct w as [sin sout serr la].
  unfold interactive_mode, bind, print, input, write_stdout, run_parse_args
    in H.
  rewrite Hparse in H. unfold ret, int, raise in H.
  destruct sin as [|t [|c0 [|sp [|cats [|file [|dec [|tm sin7]]]]]]];
    cbn [stdin stdout stderr launched] in H; try discriminate H.
  destruct (PyStr.nonempty tm); [destruct (PyStr.to_int tm)|];
    cbn [stdin stdout stderr launched] in H; try discriminate H;
    destruct sin7 as [|ports [|out sin9]];
    cbn [stdin stdout stderr launched] in H; discriminate H.
Qed.

(** The statuses [main] exits with: 2 after a usage error, 0 after the
    help text, and otherwise only the non-zero status of the command it
    launched. A scan that succeeds ends [main] without [sys.exit]. *)
Theorem main_exit_status (host : Host) (argv : list string) (w w' : World)
        (c : Z) :
  main host argv w = (Exit c, w') ->
  (c = 2%Z /\ exists e, parse_args argv = Argparse.Usage e) \/
  (c = 0%Z /\ parse_args argv = Argparse.HelpShown) \/
  (c <> 0%Z /\
   exists (cfg : Config) (w1 : World),
     configure argv w = (Ret cfg, w1) /\
     spawn host (build_command cfg) = Some c).
Proof.
  intros H. unfold main, bind in H.
  destruct (configure argv w) as [[cfg|c1|e] w1] eqn:E.
  - right. right.
    unfold execute, bind, try_except_CalledProcessError, subprocess_run,
      print, eprint, write_stdout, write_stderr, sys_exit in H.
    cbn [stdin stdout stderr launched] in H.
    destruct (spawn host (build_command cfg)) as [rc|] eqn:Hs;
      [|discriminate H].
    destruct (Z.eqb_spec rc 0); [discriminate H|].
    inversion H; subst c. split; [assumption|]. now exists cfg, w1.
  - inversion H; subst c1 w1. clear H.
    unfold configure, bind, run_parse_args in E.
    destruct (parse_args argv) as [args|e|] eqn:Hparse.
    + unfold ret in E. exfalso.
      destruct (target args) as [t|];
        [destruct (interactive args || negb (PyStr.nonempty t));
         [|discriminate E]|];
        exact (@interactive_mode_never_exits argv args w w' c Hparse E).
    + left. inversion E. split; [reflexivity | now exists e].
    + right. left. inversion E. now split.
  - discriminate H.
Qed.

Lemma main_exit_status_witness :
  exists (cfg : Config) (w1 : World),
    configure ["example.com"] (initial []) = (Ret cfg, w1) /\
    spawn (host_status 3) (build_command cfg) = Some 3%Z.
Proof.
  destruct (@main_exit_status (host_status 3) ["example.com"] (initial [])
              (snd (main (host_status 3) ["example.com"] (initial [])))
              3%Z eq_refl)
    as [[H _] | [[H _] | [_ H]]]; [discriminate H | discriminate H | exact H].
Defined.

Lemma classify_plain (t : string) :
  PyStr.startswith t "-" = false ->
  String.eqb t "--" = false /\
  Argparse.parse_optional parser t = inr (Argparse.positional_arg Args).
Proof.
  intros H. destruct t as [|c r]; [split; reflexivity|].
  unfold PyStr.startswith in H. cbn [PyStr.strip_prefix] in H.
  destruct (Ascii.eqb "-" c) eqn:Ec; [discriminate|].
  assert (Ec' : Ascii.eqb c "-" = false) by now rewrite Ascii.eqb_sym.
  split.
  - cbn [String.eqb]. now rewrite Ec'.
  - cbn [Argparse.parse_optional]. now rewrite Ec'.
Qed.



(** ** A whole interactive session *)

(** An interactive session that goes well, from start to end: the eleven
    prompt texts in order, nine lines read, then the [Running:] line, one
    command launched, the one built from the answers, and [Scan complete.];
    nothing on standard error. *)
Theorem interactive_session_transcript (host : Host) (argv : list string)
        (args : Args) (a : Answers) (level : Z) (w : World)
        (rest : list string) :
  parse_args argv = Argparse.Parsed args ->
  goes_interactive args ->
  stdin w = (answer_lines a ++ rest)%list ->
  timing_level (ans_timing a) = Some level ->
  spawn host (build_command (interactive_config a level)) = Some 0%Z ->
  main host argv w =
  (Ret tt,
   mkWorld rest
     (stdout w ++ interactive_prompts
      ++ [running_line (build_command (interactive_config a level));
          Text ("Scan complete." ++ newline)])%list
     (stderr w)
     (launched w ++ [build_command (interactive_config a level)])%list).
Proof.
  intros Hparse Hgo Hin Hlevel Hspawn.
  unfold main, bind.
  rewrite (@configure_goes_interactive argv args w Hparse Hgo).
  rewrite (@interactive_mode_run argv args a level w rest Hparse Hin Hlevel).
  unfold execute, bind, try_except_CalledProcessError, subprocess_run, print,
    write_stdout.
  cbn [stdin stdout stderr launched]. rewrite Hspawn.
  cbn [Z.eqb stdin stdout stderr launched].
  unfold running_line. rewrite <- !app_assoc. reflexivity.
Qed.

Lemma interactive_session_transcript_witness :
  main (host_status 0) [] (initial (answer_lines answers_1_4)) =
  (Ret tt,
   mkWorld []
     (interactive_prompts
      ++ [Text ("Running: sudo nmap -sS -sV -T4 -p 1-1000 example.com -oN scan.txt"
                ++ newline);
          Text ("Scan complete." ++ newline)])%list
     []
     [["sudo"; "nmap"; "-sS"; "-sV"; "-T4"; "-p"; "1-1000"; "example.com";
       "-oN"; "scan.txt"]]).
Proof.
  apply (@interactive_session_transcript (host_status 0) []
           (Argparse.defaults parser) answers_1_4 4%Z
           (initial (answer_lines answers_1_4)) []).
  - reflexivity.
  - right. left. reflexivity.
  - reflexivity.
  - reflexivity.
  - reflexivity.
Defined.
